(** * devhub-signing-agent: the archive signing pipelines of [src/libs/utils.js]

    A shallow embedding of the two generations of [utils.js] (the January 2018
    file with the inline [signxcarchive], and the June 2018 file with
    [packageForDelivery], [signxcarchive] and [signipaarchive]) and the
    properties of their signing-identity resolution, result parsing and error
    propagation.

    Strings are sequences of code units below 256.  Shell commands are kept
    as structured values, one constructor per command template of the source;
    the host (child processes and the identifier generator) is an explicit
    parameter, and every promise is a function of the world reached so far. *)

From Stdlib Require Import String Ascii List Arith Bool Lia DecimalString.
Import ListNotations.
Open Scope string_scope.

(* ------------------------------------------------------------------ *)
(** ** JavaScript strings and arrays *)

Module Js.

Definition LF : ascii := "010"%char.
Definition SPACE : ascii := " "%char.
Definition DOT : ascii := "."%char.
Definition SLASH : ascii := "/"%char.
Definition DQUOTE : ascii := "034"%char.

(** ECMAScript WhiteSpace and LineTerminator code units below 256. *)
Definition isWhiteSpace (c : ascii) : bool :=
  let n := nat_of_ascii c in
  (((9 <=? n) && (n <=? 13)) || (n =? 32) || (n =? 160))%nat.

Fixpoint trimStart (s : string) : string :=
  match s with
  | EmptyString => EmptyString
  | String c r => if isWhiteSpace c then trimStart r else s
  end.

Fixpoint trimEnd (s : string) : string :=
  match s with
  | EmptyString => EmptyString
  | String c r =>
      match trimEnd r with
      | EmptyString => if isWhiteSpace c then EmptyString else String c EmptyString
      | r' => String c r'
      end
  end.

(** [String.prototype.trim] *)
Definition trim (s : string) : string := trimStart (trimEnd s).

(** [String.prototype.includes]: [sub] occurs in [s] at some position. *)
Fixpoint includes (s sub : string) : bool :=
  if prefix sub s then true
  else match s with
       | EmptyString => false
       | String _ r => includes r sub
       end.

(** [String.prototype.split] for a separator of one code unit (every
    separator of the source is one). *)
Fixpoint split (sep : ascii) (s : string) : list string :=
  match s with
  | EmptyString => [EmptyString]
  | String c r =>
      if Ascii.eqb c sep then EmptyString :: split sep r
      else match split sep r with
           | [] => [String c EmptyString]
           | x :: xs => String c x :: xs
           end
  end.

(** [String.prototype.substr(start)] *)
Fixpoint substr (start : nat) (s : string) : string :=
  match start, s with
  | O, _ => s
  | S n, EmptyString => EmptyString
  | S n, String _ r => substr n r
  end.

(** [Array.prototype.slice(0, -k)] *)
Definition sliceEnd {A} (k : nat) (l : list A) : list A :=
  firstn (List.length l - k) l.

(** [Array.prototype.join] *)
Definition join (sep : string) (l : list string) : string := String.concat sep l.

(** [Array.prototype.pop] on a non-empty array: the last element. *)
Definition pop (l : list string) : string := last l EmptyString.

(** A string is truthy when it is not empty. *)
Definition truthy (s : string) : bool := negb (s =? "").

(** Template-literal rendering of a number. *)
Definition ofNat (n : nat) : string := NilZero.string_of_uint (Nat.to_uint n).

Definition quoted (s : string) : string :=
  String DQUOTE s ++ String DQUOTE EmptyString.

End Js.

(* ------------------------------------------------------------------ *)
(** ** Node's [path] module (posix) *)

Module Path.

Definition nonEmpty (s : string) : bool := negb (s =? "").

(** [path.basename]: trailing separators are dropped, then the part after
    the last separator is returned. *)
Definition basename (p : string) : string :=
  last (filter nonEmpty (Js.split Js.SLASH p)) EmptyString.

(** [normalizeString]: [stack] holds the kept segments, innermost first. *)
Fixpoint normalizeSegments (allowAboveRoot : bool) (segs stack : list string)
  : list string :=
  match segs with
  | [] => rev stack
  | seg :: rest =>
      if (seg =? "") || (seg =? ".") then
        normalizeSegments allowAboveRoot rest stack
      else if seg =? ".." then
        match stack with
        | top :: below =>
            if top =? ".." then
              normalizeSegments allowAboveRoot rest
                (if allowAboveRoot then ".." :: stack else stack)
            else normalizeSegments allowAboveRoot rest below
        | [] =>
            normalizeSegments allowAboveRoot rest
              (if allowAboveRoot then [".."] else [])
        end
      else normalizeSegments allowAboveRoot rest (seg :: stack)
  end.

Definition isAbsolute (p : string) : bool := prefix "/" p.

Fixpoint endsWithSlash (p : string) : bool :=
  match p with
  | EmptyString => false
  | String c EmptyString => Ascii.eqb c Js.SLASH
  | String _ r => endsWithSlash r
  end.

(** [path.normalize] *)
Definition normalize (p : string) : string :=
  if p =? "" then "."
  else
    let abs := isAbsolute p in
    let res :=
      Js.join "/" (normalizeSegments (negb abs) (Js.split Js.SLASH p) []) in
    if res =? "" then
      (if abs then "/" else if endsWithSlash p then "./" else ".")
    else
      (if abs then "/" else "") ++ res ++ (if endsWithSlash p then "/" else "").

(** [path.join] *)
Definition join (parts : list string) : string :=
  let joined := Js.join "/" (filter nonEmpty parts) in
  if joined =? "" then "." else normalize joined.

End Path.

(* ------------------------------------------------------------------ *)
(** ** Child processes, promises and the world *)

(** The shell commands the source passes to [exec], with the values it
    splices into each template (quoting and layout are not kept). *)
Inductive Cmd : Type :=
| Unzip (archive dest : string)
    (** mkdir -p dest && unzip -q archive -d dest *)
| Find (dir pattern : string)
    (** find dir -iname 'pattern' *)
| ExportArchive (archivePath exportPath exportOptionsPlist : string)
    (** xcodebuild -exportArchive -archivePath .. -exportPath ..
        -exportOptionsPlist .. *)
| FindIdentity
    (** security find-identity -p codesigning -v *)
| ShowAuthority (dir : string)
    (** cd dir && codesign -d --verbose=4 Payload/*.app 2>&1 |
        grep 'Authority' | head -1 | awk -F '=' '{ print $2 }' *)
| Resign (dir identity outFileName dest : string)
    (** cd dir && rm -rf Payload/*.app/_CodeSignature &&
        codesign -f -s identity Payload/*.app &&
        zip -qr outFileName * && mv outFileName dest *)
| ZipInline (deliveryFile items : string)
    (** zip -6rq -n 'ipa' deliveryFile items && echo 'OK' || echo 'FAIL' *)
| ZipDelivery (dir fileName names : string)
    (** cd dir && zip -6rq -n 'ipa' fileName names &&
        echo 'OK' || echo 'FAIL' *).

(** A JavaScript exception value. *)
Inductive JsError : Type :=
| Error (message : string)          (** [new Error(message)] *)
| TypeError (message : string)      (** raised by the engine *)
| ExecError (message : string).     (** the rejection of a child process *)

Definition message (e : JsError) : string :=
  match e with
  | Error m | TypeError m | ExecError m => m
  end.

(** What a settled promise holds; [Promise.reject()] rejects with no reason. *)
Inductive Outcome (A : Type) : Type :=
| Resolved (value : A)
| Rejected (reason : option JsError).
Arguments Resolved {A} value.
Arguments Rejected {A} reason.

Record ExecResult : Type := mkExecResult { stdout : string; stderr : string }.

Inductive Sink : Type := LoggerError | ConsoleLog.

(** The host: what a command answers after the commands run before it, and
    the identifiers [shortid.generate] hands out. *)
Record Host : Type := mkHost {
  spawn : list Cmd -> Cmd -> JsError + ExecResult;
  generate : nat -> string
}.

Record World : Type := mkWorld {
  trace : list Cmd;                 (** commands run so far, oldest first *)
  issued : nat;                     (** identifiers generated so far *)
  logged : list (Sink * string)     (** lines written so far *)
}.

Definition initial : World := mkWorld [] 0 [].

Definition Async (A : Type) : Type := World -> Outcome A * World.

Definition ret {A} (a : A) : Async A := fun w => (Resolved a, w).

Definition bind {A B} (m : Async A) (k : A -> Async B) : Async B :=
  fun w =>
    match m w with
    | (Resolved a, w') => k a w'
    | (Rejected e, w') => (Rejected e, w')
    end.

Declare Scope async_scope.
Delimit Scope async_scope with async.
Notation "x <- m ;; k" := (bind m (fun x => k))
  (at level 61, m at next level, right associativity) : async_scope.
Notation "m ;; k" := (bind m (fun _ => k))
  (at level 61, right associativity) : async_scope.
Open Scope async_scope.

(** [throw e] *)
Definition throw {A} (e : JsError) : Async A := fun w => (Rejected (Some e), w).

(** [Promise.reject()] *)
Definition reject {A} : Async A := fun w => (Rejected None, w).

(** [try { body } catch (error) { handler }] *)
Definition tryCatch {A} (body : Async A) (handler : option JsError -> Async A)
  : Async A :=
  fun w =>
    match body w with
    | (Resolved a, w') => (Resolved a, w')
    | (Rejected e, w') => handler e w'
    end.

(** [Promise.all]: every promise of the list has been started; the result is
    rejected as soon as one of them is (here: the first in list order). *)
Fixpoint promiseAll {A} (ps : list (Async A)) : Async (list A) :=
  fun w =>
    match ps with
    | [] => (Resolved [], w)
    | p :: rest =>
        let (o, w1) := p w in
        let (os, w2) := promiseAll rest w1 in
        (match o, os with
         | Rejected e, _ => Rejected e
         | Resolved _, Rejected e => Rejected e
         | Resolved a, Resolved l => Resolved (a :: l)
         end, w2)
    end.

Definition write (sink : Sink) (line : string) : Async unit :=
  fun w => (Resolved tt, mkWorld (trace w) (issued w) (logged w ++ [(sink, line)])).

(** [error.message] in a catch clause. *)
Definition messageOf (error : option JsError) : Async string :=
  match error with
  | Some e => ret (message e)
  | None => throw (TypeError "Cannot read property 'message' of undefined")
  end.

Section Process.

Variable host : Host.

(** [util.promisify(cp.exec)] *)
Definition exec (c : Cmd) : Async ExecResult :=
  fun w =>
    let w' := mkWorld (trace w ++ [c]) (issued w) (logged w) in
    match spawn host (trace w) c with
    | inl e => (Rejected (Some e), w')
    | inr r => (Resolved r, w')
    end.

(** [shortid.generate()] *)
Definition shortid_generate : Async string :=
  fun w =>
    (Resolved (generate host (issued w)),
     mkWorld (trace w) (S (issued w)) (logged w)).

End Process.

(* ------------------------------------------------------------------ *)
(** ** Reading the export reports (the same in both generations) *)

Definition EXPORT_SUCCEEDED : string := "EXPORT SUCCEEDED".

(** The body of [response.forEach(value => ...)] in [signxcarchive], with the
    array [items] it pushes to; both generations of the file have the same
    loop. *)
Fixpoint collectExported (response : list ExecResult) (items : list string)
  : Async (list string) :=
  match response with
  | [] => ret items
  | value :: rest =>
      let stdout := stdout value in
      if Js.includes stdout EXPORT_SUCCEEDED then
        let lines := Js.split Js.LF (Js.trim stdout) in
        let components := Js.split Js.SPACE (nth 0 lines "") in
        if negb (List.length components =? 4)%nat then
          throw (Error "Unexpected response from archive export")
        else collectExported rest (items ++ [Js.pop components])
      else collectExported rest items
  end.

(** The export command [signxcarchive] builds for one located bundle. *)
Definition exportCommand (apath outputDir element : string) : Cmd :=
  ExportArchive element
    (Path.join [apath; outputDir;
                nth 0 (Js.split Js.DOT (Path.basename element)) ""])
    (Path.join [apath; "options.plist"]).

(* ------------------------------------------------------------------ *)
(** ** [utils.js], January 2018: the inline [signxcarchive] *)

Module Legacy.
Section Pipeline.

Variable host : Host.

Definition signxcarchive (archiveFilePath workspace : string) : Async string :=
  promise <-
    tryCatch
      (id <- shortid_generate host ;;
       let apath := Path.join [workspace; id] in
       exec host (Unzip archiveFilePath apath) ;;
       findResult <- exec host (Find apath "*.xcarchive") ;;
       if negb (stderr findResult =? "") then
         throw (Error "Unable to find xcarchive(s) in package")
       else
         response <-
           promiseAll
             (map (fun element => exec host (exportCommand apath "signed" element))
                  (Js.split Js.LF (Js.trim (stdout findResult)))) ;;
         items <- collectExported response [] ;;
         id' <- shortid_generate host ;;
         let deliveryFile := Path.join [apath; id' ++ ".zip"] in
         zipResult <- exec host (ZipInline deliveryFile (Js.join "," items)) ;;
         if negb (stderr zipResult =? "") || Js.includes (stdout zipResult) "FAIL"
         then throw (Error "Unable to create delivery package")
         else ret (ret deliveryFile))
      (fun error =>
         m <- messageOf error ;;
         write LoggerError m ;;
         ret reject) ;;
  promise.

End Pipeline.
End Legacy.

(* ------------------------------------------------------------------ *)
(** ** [utils.js], June 2018 *)

(** A value that is a string or [undefined]. *)
Definition isFalsy (v : option string) : bool :=
  match v with
  | None => true
  | Some s => negb (Js.truthy s)
  end.

Definition toString (v : option string) : string :=
  match v with
  | None => "undefined"
  | Some s => s
  end.

Section Pipeline.

Variable host : Host.

Definition currentValidSigningIdentities : Async (list string) :=
  r <- exec host FindIdentity ;;
  let items :=
    map (fun item => Js.substr 3 (Js.trim item))
        (Js.sliceEnd 2 (Js.split Js.LF (stdout r))) in
  ret items.

Definition extractCurrentSigningIdentifier (apath : string) : Async string :=
  r <- exec host (ShowAuthority apath) ;;
  currentValidSigningIdentities ;;
  ret (Js.trim (stdout r)).

(** [cids.find] yields [undefined] when no item passes the test, and
    reading [length] of [undefined] raises. *)
Definition uniqueSigningIdentifierForValue (value : string)
  : Async (option string) :=
  cids <- currentValidSigningIdentities ;;
  match find (fun item => Js.includes item value) cids with
  | None => throw (TypeError "Cannot read property 'length' of undefined")
  | Some matches =>
      if (String.length matches =? 0)%nat then ret None
      else ret (Some (Js.trim (nth 0 (Js.split Js.SPACE matches) "")))
  end.

Definition extractArchiveContents (archiveFilePath workspace : string)
  : Async string :=
  id <- shortid_generate host ;;
  let apath := Path.join [workspace; id] in
  exec host (Unzip archiveFilePath apath) ;;
  ret apath.

Definition packageForDelivery (apath : string) (items : list string)
  : Async string :=
  id <- shortid_generate host ;;
  let fileName := id ++ ".zip" in
  zipResult <-
    exec host (ZipDelivery apath fileName
                 (Js.join " " (map Path.basename items))) ;;
  if negb (stderr zipResult =? "") || Js.includes (stdout zipResult) "FAIL"
  then throw (Error "Unable to create delivery package")
  else ret (Path.join [apath; fileName]).

(** The promise made by [packageForDelivery] is returned from inside the
    [try] block without being awaited: the [catch] clause has been left by
    the time it settles, and [signxcarchive] settles as that promise does. *)
Definition signxcarchive (archiveFilePath workspace : string) : Async string :=
  promise <-
    tryCatch
      (let outputDir := "signed" in
       apath <- extractArchiveContents archiveFilePath workspace ;;
       findResult <- exec host (Find apath "*.xcarchive") ;;
       if negb (stderr findResult =? "") then
         throw (Error "Unable to find xcarchive(s) in package")
       else
         response <-
           promiseAll
             (map (fun element => exec host (exportCommand apath outputDir element))
                  (Js.split Js.LF (Js.trim (stdout findResult)))) ;;
         items <- collectExported response [] ;;
         let deliveryFile :=
           packageForDelivery (Path.join [apath; outputDir]) items in
         ret deliveryFile)
      (fun error =>
         m <- messageOf error ;;
         write ConsoleLog m ;;
         ret reject) ;;
  promise.

(** The test of [results.filter] in [signipaarchive]. *)
Definition isBundle (item : string) : bool :=
  Js.truthy item && negb (Js.includes item "__MACOSX").

(** The [for] loop of [signipaarchive] from [index] on, with the array
    [items] it pushes to. *)
Fixpoint resignFrom (apath outBasePath : string) (results : list string)
    (index : nat) (items : list string) : Async (list string) :=
  match results with
  | [] => ret items
  | value :: rest =>
      let out := Path.join [outBasePath; Js.ofNat index] in
      let outFileName := Path.basename (Js.trim value) in
      let items := (items ++ [outFileName])%list in
      exec host (Unzip (Js.trim value) out) ;;
      certIdentifier <- extractCurrentSigningIdentifier out ;;
      signingIdentifier <- uniqueSigningIdentifierForValue certIdentifier ;;
      if isFalsy signingIdentifier then
        throw (Error "No match to current signing identity")
      else
        exec host (Resign out (toString signingIdentifier) outFileName apath) ;;
        resignFrom apath outBasePath rest (S index) items
  end.

Definition signipaarchive (archiveFilePath workspace : string) : Async string :=
  let outputDir := "signed" in
  let items := [] in
  apath <- extractArchiveContents archiveFilePath workspace ;;
  let outBasePath := Path.join [apath; outputDir] in
  findResult <- exec host (Find apath "*.ipa") ;;
  if negb (stderr findResult =? "") then
    throw (Error "Unable to find xcarchive(s) in package")
  else
    let results := filter isBundle (Js.split Js.LF (stdout findResult)) in
    items <- resignFrom apath outBasePath results 0 items ;;
    packageForDelivery apath items.

End Pipeline.

(* ------------------------------------------------------------------ *)
(** ** Scripted hosts

    A scripted host answers every command with exit status 0 and an empty
    error stream; its script gives the output of each tool. *)

Definition nl : string := String Js.LF EmptyString.

Record Script : Type := mkScript {
  findOut : string -> string;              (** searched directory to output *)
  exportOut : string -> string -> string;  (** archive and export path to output *)
  identityOut : string;
  authorityOut : string;
  zipOut : string
}.

Definition scripted (s : Script) : Host :=
  mkHost
    (fun _ c =>
       inr (mkExecResult
              match c with
              | Find dir _ => findOut s dir
              | ExportArchive archivePath exportPath _ =>
                  exportOut s archivePath exportPath
              | FindIdentity => identityOut s
              | ShowAuthority _ => authorityOut s
              | ZipInline _ _ | ZipDelivery _ _ _ => zipOut s
              | Unzip _ _ | Resign _ _ _ _ => ""
              end ""))
    (fun n => "id" ++ Js.ofNat n).

(** A host on which the commands picked by [refused] exit with a non-zero
    status: their promise is rejected with [err]. *)
Definition refusing (refused : Cmd -> bool) (err : JsError) (base : Host) : Host :=
  mkHost (fun before c => if refused c then inl err else spawn base before c)
         (generate base).

Definition isResign (c : Cmd) : bool :=
  match c with
  | Resign _ _ _ _ => true
  | _ => false
  end.

(** One valid identity, as [security find-identity -p codesigning -v]
    prints it. *)
Definition oneIdentity : string :=
  "  1) 0A1B2C3D4E5F " ++ Js.quoted "Apple Distribution: Example Org (ABCDE12345)"
  ++ nl ++ "     1 valid identities found" ++ nl.

(** An archive holding [App.ipa], whose bundle carries [authority]. *)
Definition ipaScript (authority : string) : Script :=
  mkScript (fun dir => dir ++ "/App.ipa" ++ nl)
           (fun _ _ => "")
           oneIdentity
           (authority ++ nl)
           ("OK" ++ nl).

(** What [xcodebuild -exportArchive] prints when it succeeds. *)
Definition exported (artifact : string) : string :=
  "Exported App to: " ++ artifact ++ nl ++ "** EXPORT SUCCEEDED **" ++ nl.

(** An archive holding [A.xcarchive] and [B.xcarchive], with what the export
    of each prints. *)
Definition xcScript (reportA reportB zip : string) : Script :=
  mkScript (fun dir => dir ++ "/A.xcarchive" ++ nl ++ dir ++ "/B.xcarchive" ++ nl)
           (fun archivePath _ =>
              if Js.includes archivePath "A.xcarchive" then reportA else reportB)
           oneIdentity
           ""
           zip.

(** What [xcodebuild -exportArchive] prints when it fails. *)
Definition notExported : string :=
  "error: exportArchive: No signing certificate found" ++ nl
  ++ "** EXPORT FAILED **" ++ nl.

(** An archive in which the search finds nothing. *)
Definition emptyScript : Script :=
  mkScript (fun _ => "") (fun _ _ => "") oneIdentity "" ("OK" ++ nl).

(** An archive made on macOS: next to [bundle], the search also finds its
    shadow under [__MACOSX]. *)
Definition shadowScript (bundle : string) : Script :=
  mkScript (fun dir => dir ++ "/" ++ bundle ++ nl
                       ++ dir ++ "/__MACOSX/" ++ bundle ++ nl)
           (fun _ exportPath => exported (exportPath ++ "/App.ipa"))
           oneIdentity
           ("Apple Distribution: Example Org (ABCDE12345)" ++ nl)
           ("OK" ++ nl).

(* ------------------------------------------------------------------ *)
(** ** Vocabulary of the statements *)

(** The identifier of an identity entry: what [uniqueSigningIdentifierForValue]
    cuts out of the entry it found ([matches.split(' ')[0].trim()]). *)
Definition identifierOf (entry : string) : string :=
  Js.trim (nth 0 (Js.split Js.SPACE entry) "").

(** An export reported success. *)
Definition succeeded (r : ExecResult) : bool :=
  Js.includes (stdout r) EXPORT_SUCCEEDED.

(** The components of the first line of an export's output. *)
Definition components (r : ExecResult) : list string :=
  Js.split Js.SPACE (nth 0 (Js.split Js.LF (Js.trim (stdout r))) "").

(** The artifact an export names: the last component of its first line. *)
Definition artifact (r : ExecResult) : string := Js.pop (components r).

(** The exports [signxcarchive] starts for the output of the search. *)
Definition exportsOf (host : Host) (apath : string) (findResult : ExecResult)
  : list (Async ExecResult) :=
  map (fun element => exec host (exportCommand apath "signed" element))
      (Js.split Js.LF (Js.trim (stdout findResult))).

(** The statements the [try] blocks of both generations of [signxcarchive]
    share, up to the end of [response.forEach]: they leave the extraction
    directory and the collected items. *)
Definition exportStages (host : Host) (archiveFilePath workspace : string)
  : Async (string * list string) :=
  apath <- extractArchiveContents host archiveFilePath workspace ;;
  findResult <- exec host (Find apath "*.xcarchive") ;;
  if negb (stderr findResult =? "") then
    throw (Error "Unable to find xcarchive(s) in package")
  else
    response <- promiseAll (exportsOf host apath findResult) ;;
    items <- collectExported response [] ;;
    ret (apath, items).

(** The errors the source raises.  The text of the engine's [TypeError]
    varies with the version of the engine; its kind is what matters. *)
Definition undefinedLength : JsError :=
  TypeError "Cannot read property 'length' of undefined".

Definition unexpectedResponse : JsError :=
  Error "Unexpected response from archive export".

Definition packagingFailed : JsError := Error "Unable to create delivery package".

(** The world after a caught error has been logged. *)
Definition afterLog (sink : Sink) (line : string) (w : World) : World :=
  mkWorld (trace w) (issued w) (logged w ++ [(sink, line)]).

(** The steps of one turn of the re-sign loop, and the stages of
    [signipaarchive], each with the rejection it can end in. *)
Inductive ResignFailure (host : Host) (apath outBasePath : string)
  : list string -> nat -> World -> option JsError -> World -> Prop :=
| UnzipFails value rest index w e w' :
    exec host (Unzip (Js.trim value) (Path.join [outBasePath; Js.ofNat index])) w
      = (Rejected e, w') ->
    ResignFailure host apath outBasePath (value :: rest) index w e w'
| InspectionFails value rest index w u w1 e w' :
    let out := Path.join [outBasePath; Js.ofNat index] in
    exec host (Unzip (Js.trim value) out) w = (Resolved u, w1) ->
    extractCurrentSigningIdentifier host out w1 = (Rejected e, w') ->
    ResignFailure host apath outBasePath (value :: rest) index w e w'
| ResolutionFails value rest index w u w1 certIdentifier w2 e w' :
    let out := Path.join [outBasePath; Js.ofNat index] in
    exec host (Unzip (Js.trim value) out) w = (Resolved u, w1) ->
    extractCurrentSigningIdentifier host out w1 = (Resolved certIdentifier, w2) ->
    uniqueSigningIdentifierForValue host certIdentifier w2 = (Rejected e, w') ->
    ResignFailure host apath outBasePath (value :: rest) index w e w'
| NoIdentity value rest index w u w1 certIdentifier w2 signingIdentifier w' :
    let out := Path.join [outBasePath; Js.ofNat index] in
    exec host (Unzip (Js.trim value) out) w = (Resolved u, w1) ->
    extractCurrentSigningIdentifier host out w1 = (Resolved certIdentifier, w2) ->
    uniqueSigningIdentifierForValue host certIdentifier w2
      = (Resolved signingIdentifier, w') ->
    isFalsy signingIdentifier = true ->
    ResignFailure host apath outBasePath (value :: rest) index w
      (Some (Error "No match to current signing identity")) w'
| SigningFails value rest index w u w1 certIdentifier w2 signingIdentifier w3 e w' :
    let out := Path.join [outBasePath; Js.ofNat index] in
    exec host (Unzip (Js.trim value) out) w = (Resolved u, w1) ->
    extractCurrentSigningIdentifier host out w1 = (Resolved certIdentifier, w2) ->
    uniqueSigningIdentifierForValue host certIdentifier w2
      = (Resolved signingIdentifier, w3) ->
    isFalsy signingIdentifier = false ->
    exec host (Resign out (toString signingIdentifier)
                 (Path.basename (Js.trim value)) apath) w3 = (Rejected e, w') ->
    ResignFailure host apath outBasePath (value :: rest) index w e w'
| LaterBundleFails value rest index w u w1 certIdentifier w2 signingIdentifier
    w3 r w4 e w' :
    let out := Path.join [outBasePath; Js.ofNat index] in
    exec host (Unzip (Js.trim value) out) w = (Resolved u, w1) ->
    extractCurrentSigningIdentifier host out w1 = (Resolved certIdentifier, w2) ->
    uniqueSigningIdentifierForValue host certIdentifier w2
      = (Resolved signingIdentifier, w3) ->
    isFalsy signingIdentifier = false ->
    exec host (Resign out (toString signingIdentifier)
                 (Path.basename (Js.trim value)) apath) w3 = (Resolved r, w4) ->
    ResignFailure host apath outBasePath rest (S index) w4 e w' ->
    ResignFailure host apath outBasePath (value :: rest) index w e w'.

Inductive IpaStageFailure (host : Host) (archiveFilePath workspace : string)
    (w : World) : option JsError -> World -> Prop :=
| ExtractionFails e w' :
    extractArchiveContents host archiveFilePath workspace w = (Rejected e, w') ->
    IpaStageFailure host archiveFilePath workspace w e w'
| SearchFails apath w1 e w' :
    extractArchiveContents host archiveFilePath workspace w = (Resolved apath, w1) ->
    exec host (Find apath "*.ipa") w1 = (Rejected e, w') ->
    IpaStageFailure host archiveFilePath workspace w e w'
| SearchComplains apath w1 findResult w' :
    extractArchiveContents host archiveFilePath workspace w = (Resolved apath, w1) ->
    exec host (Find apath "*.ipa") w1 = (Resolved findResult, w') ->
    stderr findResult <> "" ->
    IpaStageFailure host archiveFilePath workspace w
      (Some (Error "Unable to find xcarchive(s) in package")) w'
| ResignFails apath w1 findResult w2 e w' :
    extractArchiveContents host archiveFilePath workspace w = (Resolved apath, w1) ->
    exec host (Find apath "*.ipa") w1 = (Resolved findResult, w2) ->
    stderr findResult = "" ->
    ResignFailure host apath (Path.join [apath; "signed"])
      (filter isBundle (Js.split Js.LF (stdout findResult))) 0 w2 e w' ->
    IpaStageFailure host archiveFilePath workspace w e w'
| PackagingFails apath w1 findResult w2 items w3 e w' :
    extractArchiveContents host archiveFilePath workspace w = (Resolved apath, w1) ->
    exec host (Find apath "*.ipa") w1 = (Resolved findResult, w2) ->
    stderr findResult = "" ->
    resignFrom host apath (Path.join [apath; "signed"])
      (filter isBundle (Js.split Js.LF (stdout findResult))) 0 [] w2
      = (Resolved items, w3) ->
    packageForDelivery host apath items w3 = (Rejected e, w') ->
    IpaStageFailure host archiveFilePath workspace w e w'.

(* ------------------------------------------------------------------ *)
(** ** [utils.js], January 2018: [fetchKeychainValue]

    The function runs one command template only and keeps its result in an
    object it fills key by key: its world is the commands run so far and
    that object. *)

Module Keychain.

(** security find-generic-password -w -s name -a account *)
Inductive Cmd : Type :=
| FindGenericPassword (name account : string).

Record Host : Type := mkHost {
  spawn : list Cmd -> Cmd -> JsError + ExecResult
}.

(** The own properties of an object whose values are strings, latest
    first. *)
Definition Object : Type := list (string * string).

(** [obj[name]] for an own property. *)
Fixpoint getOwn (obj : Object) (name : string) : option string :=
  match obj with
  | [] => None
  | (k, v) :: rest => if k =? name then Some v else getOwn rest name
  end.

(** [obj[name] = value]: the key [__proto__] reaches the setter of
    [Object.prototype], which ignores a string. *)
Definition setOwn (obj : Object) (name value : string) : Object :=
  if name =? "__proto__" then obj
  else (name, value) :: filter (fun kv => negb (fst kv =? name)) obj.

Record World : Type := mkWorld {
  trace : list Cmd;          (** commands run so far, oldest first *)
  keyPairs : Object          (** the variable [keyPairs] *)
}.

Definition Async (A : Type) : Type := World -> Outcome A * World.

Definition ret {A} (a : A) : Async A := fun w => (Resolved a, w).

Definition bind {A B} (m : Async A) (k : A -> Async B) : Async B :=
  fun w =>
    match m w with
    | (Resolved a, w') => k a w'
    | (Rejected e, w') => (Rejected e, w')
    end.

Definition throw {A} (e : JsError) : Async A := fun w => (Rejected (Some e), w).

Definition tryCatch {A} (body : Async A) (handler : option JsError -> Async A)
  : Async A :=
  fun w =>
    match body w with
    | (Resolved a, w') => (Resolved a, w')
    | (Rejected e, w') => handler e w'
    end.

(** [Error.prototype.toString], as a template literal renders a caught
    value. *)
Definition errorToString (error : option JsError) : string :=
  match error with
  | None => "undefined"
  | Some e =>
      let name := match e with TypeError _ => "TypeError" | _ => "Error" end in
      if message e =? "" then name else name ++ ": " ++ message e
  end.

Section Process.

Variable host : Host.

(** [util.promisify(cp.exec)] *)
Definition exec (c : Cmd) : Async ExecResult :=
  fun w =>
    let w' := mkWorld (trace w ++ [c]) (keyPairs w) in
    match spawn host (trace w) c with
    | inl e => (Rejected (Some e), w')
    | inr r => (Resolved r, w')
    end.

(** The callback [fetchKeychainValue] passes to [asyncForEach]. *)
Definition callback (keyAccount name : string) : Async unit :=
  bind (exec (FindGenericPassword name keyAccount)) (fun tmp =>
  let tmp := Js.split Js.LF (Js.trim (stdout tmp)) in
  fun w => (Resolved tt, mkWorld (trace w) (setOwn (keyPairs w) name (nth 0 tmp "")))).

(** [asyncForEach]: the callback is awaited for each element in turn. *)
Fixpoint asyncForEach (array : list string) (callback : string -> Async unit)
  : Async unit :=
  match array with
  | [] => ret tt
  | element :: rest => bind (callback element) (fun _ => asyncForEach rest callback)
  end.

Definition fetchKeychainValue (keyNames : list string) (keyAccount : string)
  : Async Object :=
  fun w0 =>
    let w := mkWorld (trace w0) [] in
    bind
      (tryCatch
         (asyncForEach keyNames (callback keyAccount))
         (fun error =>
            throw (Error ("Unable to find the keychain! " ++ errorToString error))))
      (fun _ w => (Resolved (keyPairs w), w))
      w.

End Process.

(** The secret read from the output of one query. *)
Definition secretOf (r : ExecResult) : string :=
  nth 0 (Js.split Js.LF (Js.trim (stdout r))) "".

(** A keychain that answers every query, the same way whenever asked. *)
Definition answering (answer : string -> string -> ExecResult) : Host :=
  mkHost (fun _ c =>
            match c with
            | FindGenericPassword name account => inr (answer name account)
            end).

(** A keychain in which the item [missing] is not found. *)
Definition lacking (missing : string) (answer : string -> string -> ExecResult)
  : Host :=
  mkHost (fun _ c =>
            match c with
            | FindGenericPassword name account =>
                if name =? missing then
                  inl (ExecError "Command failed: security find-generic-password")
                else inr (answer name account)
            end).

End Keychain.

(* ------------------------------------------------------------------ *)
(** ** Further vocabulary *)

(** The code unit [c] occurs in [s]. *)
Fixpoint hasChar (c : ascii) (s : string) : bool :=
  match s with
  | EmptyString => false
  | String a r => Ascii.eqb a c || hasChar c r
  end.

(** How often the code unit [c] occurs in [s]. *)
Fixpoint countChar (c : ascii) (s : string) : nat :=
  match s with
  | EmptyString => 0
  | String a r => (if Ascii.eqb a c then 1 else 0) + countChar c r
  end.

(** The output of the identity listing: one line per identity, then the
    line that counts them. *)
Definition listing (lines : list string) (summary : string) : string :=
  String.concat "" (map (fun line => line ++ nl) lines) ++ summary ++ nl.

(** What [currentValidSigningIdentities] keeps of one line. *)
Definition entryOf (line : string) : string := Js.substr 3 (Js.trim line).

(** A promise that only runs commands passing [allowed], and writes no
    line. *)
Definition adds {A} (allowed : Cmd -> bool) (m : Async A) : Prop :=
  forall w o w',
    m w = (o, w') ->
    exists added,
      trace w' = (trace w ++ added)%list
      /\ forallb allowed added = true
      /\ logged w' = logged w.

(** [codesign] is given an identity. *)
Definition signsWithIdentity (c : Cmd) : bool :=
  match c with
  | Resign _ identity _ _ => negb (identity =? "")
  | _ => true
  end.

(** What is unpacked is the uploaded archive or not a shadow entry. *)
Definition unpacksNoShadow (upload : string) (c : Cmd) : bool :=
  match c with
  | Unzip archive _ => (archive =? upload) || negb (Js.includes archive "__MACOSX")
  | _ => true
  end.

(** No archive is zipped. *)
Definition zipsNothing (c : Cmd) : bool :=
  match c with
  | ZipInline _ _ | ZipDelivery _ _ _ => false
  | _ => true
  end.

Definition anyCommand (c : Cmd) : bool := true.

(** Following the words of the specification: the tokens of a line split at
    white space, as [split(/\s+/)] without empty tokens gives them.  The
    code does not compute this; it is what the statement about the export
    reports is worded with. *)
Fixpoint splitAtWhiteSpace (s : string) : list string :=
  match s with
  | EmptyString => [EmptyString]
  | String c r =>
      if Js.isWhiteSpace c then EmptyString :: splitAtWhiteSpace r
      else match splitAtWhiteSpace r with
           | [] => [String c EmptyString]
           | x :: xs => String c x :: xs
           end
  end.

Definition whitespaceTokens (s : string) : list string :=
  filter Js.truthy (splitAtWhiteSpace s).

(** The white-space tokens of the first line of an export's output. *)
Definition firstLineTokens (r : ExecResult) : list string :=
  whitespaceTokens (nth 0 (Js.split Js.LF (stdout r)) "").

Definition TAB : ascii := "009"%char.

(** A report of success whose first line has a tab between its first two
    words. *)
Definition tabbedReport : string :=
  "Exported" ++ String TAB "My App to: /tmp/id0/signed/A/MyApp.ipa" ++ nl
  ++ "** EXPORT SUCCEEDED **" ++ nl.




(* ------------------------------------------------------------------ *)
(** ** Promises: how a sequence settles *)

Lemma bind_resolved {A B} (m : Async A) (k : A -> Async B) w a w' :
  m w = (Resolved a, w') -> bind m k w = k a w'.
Proof. intros H. unfold bind. now rewrite H. Qed.

Lemma bind_rejected {A B} (m : Async A) (k : A -> Async B) w e w' :
  m w = (Rejected e, w') -> bind m k w = (Rejected e, w').
Proof. intros H. unfold bind. now rewrite H. Qed.

Lemma bind_inv {A B} (m : Async A) (k : A -> Async B) w o w' :
  bind m k w = (o, w') ->
  (exists e, m w = (Rejected e, w') /\ o = Rejected e) \/
  (exists a w1, m w = (Resolved a, w1) /\ k a w1 = (o, w')).
Proof.
  unfold bind. destruct (m w) as [[a|e] w1]; intros H.
  - right. now exists a, w1.
  - left. exists e. now inversion H.
Qed.

Arguments bind_resolved {A B} {m} k {w a w'} _.
Arguments bind_rejected {A B} {m} k {w e w'} _.

Lemma tryCatch_resolved {A} (body : Async A) handler w a w' :
  body w = (Resolved a, w') -> tryCatch body handler w = (Resolved a, w').
Proof. intros H. unfold tryCatch. now rewrite H. Qed.

Lemma tryCatch_rejected {A} (body : Async A) handler w e w' :
  body w = (Rejected e, w') -> tryCatch body handler w = handler e w'.
Proof. intros H. unfold tryCatch. now rewrite H. Qed.

Arguments tryCatch_resolved {A} {body} handler {w a w'} _.
Arguments tryCatch_rejected {A} {body} handler {w e w'} _.

(* ------------------------------------------------------------------ *)
(** ** Strings and paths *)

Lemma includes_empty s : Js.includes s "" = true.
Proof. destruct s; reflexivity. Qed.

Lemma length_zero_eqb s : (String.length s =? 0)%nat = (s =? "").
Proof. destruct s; reflexivity. Qed.

(** [find] returns the first item that passes the test. *)
Lemma find_first {A} (f : A -> bool) pre x post :
  (forall y, In y pre -> f y = false) -> f x = true ->
  find f (pre ++ x :: post) = Some x.
Proof.
  intros Hpre Hx. induction pre as [|y pre IH]; simpl.
  - now rewrite Hx.
  - rewrite (Hpre y (or_introl eq_refl)). apply IH.
    intros z Hz. apply Hpre. now right.
Qed.

(** When some item passes the test, there is a first one. *)
Lemma first_match_exists {A} (f : A -> bool) l :
  (exists x, In x l /\ f x = true) ->
  exists pre x post,
    l = (pre ++ x :: post)%list
    /\ (forall y, In y pre -> f y = false) /\ f x = true.
Proof.
  induction l as [|a l IH]; intros (x & Hin & Hx); [destruct Hin|].
  destruct (f a) eqn:Ha.
  - exists [], a, l. repeat split; auto. intros y [].
  - destruct IH as (pre & x' & post & -> & Hpre & Hx').
    + exists x. destruct Hin as [->|Hin]; [congruence | now split].
    + exists (a :: pre), x', post. repeat split; auto.
      intros y [<-|Hy]; auto.
Qed.

Lemma find_none_iff {A} (f : A -> bool) l :
  find f l = None <-> forall y, In y l -> f y = false.
Proof.
  split.
  - intros H y Hy. now apply (find_none f l H).
  - induction l as [|a l IH]; simpl; intros H; [reflexivity|].
    rewrite (H a (or_introl eq_refl)). apply IH. intros y Hy. apply H. now right.
Qed.

(* ------------------------------------------------------------------ *)
(** ** Signing-identity resolution *)


(** When no valid identity contains [value], [cids.find] gives [undefined]
    and the test of its [length] raises: the resolution is rejected, it does
    not return [undefined]. *)
Lemma resolution_without_match host value w cids w1 :
  currentValidSigningIdentities host w = (Resolved cids, w1) ->
  (forall item, In item cids -> Js.includes item value = false) ->
  uniqueSigningIdentifierForValue host value w
    = (Rejected (Some undefinedLength), w1).
Proof.
  intros Hc Hnone. unfold uniqueSigningIdentifierForValue.
  rewrite (bind_resolved _ Hc).
  apply find_none_iff in Hnone. now rewrite Hnone.
Qed.

(** When some valid identity contains [value], the first one in list order
    is taken, and its identifier is returned unless the entry is empty. *)
Lemma resolution_first_match host value w pre entry post w1 :
  currentValidSigningIdentities host w = (Resolved (pre ++ entry :: post)%list, w1) ->
  (forall item, In item pre -> Js.includes item value = false) ->
  Js.includes entry value = true ->
  uniqueSigningIdentifierForValue host value w
    = (Resolved (if entry =? "" then None else Some (identifierOf entry)), w1).
Proof.
  intros Hc Hpre Hentry. unfold uniqueSigningIdentifierForValue.
  rewrite (bind_resolved _ Hc).
  rewrite (find_first (fun item => Js.includes item value) pre entry post Hpre Hentry).
  rewrite length_zero_eqb. now destruct (entry =? "").
Qed.

(** C1, at an input where no valid identity contains the bundle's authority
    string: the host's only valid identity is "Apple Distribution: Example
    Org (ABCDE12345)" and the bundle was signed by "iPhone Distribution:
    Someone Else".  The resolution does not return [undefined]: it is rejected
    with a [TypeError], and the run of [signipaarchive] is rejected with that
    [TypeError], not with the error 'No match to current signing identity';
    no packaging command is run. *)
Theorem C1_no_match_raises_type_error :
  let host := scripted (ipaScript "iPhone Distribution: Someone Else") in
  let authority := "iPhone Distribution: Someone Else" in
  (exists w, currentValidSigningIdentities host initial
     = (Resolved ["0A1B2C3D4E5F "
                  ++ Js.quoted "Apple Distribution: Example Org (ABCDE12345)"], w))
  /\ Js.includes ("0A1B2C3D4E5F "
                  ++ Js.quoted "Apple Distribution: Example Org (ABCDE12345)")
       authority = false
  /\ fst (uniqueSigningIdentifierForValue host authority initial)
     = Rejected (Some undefinedLength)
  /\ fst (signipaarchive host "/uploads/app.zip" "/tmp/" initial)
     = Rejected (Some undefinedLength)
  /\ fst (signipaarchive host "/uploads/app.zip" "/tmp/" initial)
     <> Rejected (Some (Error "No match to current signing identity"))
  /\ trace (snd (signipaarchive host "/uploads/app.zip" "/tmp/" initial))
     = [Unzip "/uploads/app.zip" "/tmp/id0"; Find "/tmp/id0" "*.ipa";
        Unzip "/tmp/id0/App.ipa" "/tmp/id0/signed/0";
        ShowAuthority "/tmp/id0/signed/0"; FindIdentity; FindIdentity].
Proof.
  cbv zeta. repeat split.
  - eexists. vm_compute. reflexivity.
  - vm_compute. discriminate.
Qed.

(** C2, as stated, fails: with one valid identity on the host, the
    resolution of the empty authority string returns that identity. *)
Lemma C2_counterexample :
  let host := scripted (ipaScript "") in
  fst (extractCurrentSigningIdentifier host "/tmp/id0/signed/0" initial)
    = Resolved ""
  /\ fst (currentValidSigningIdentities host initial)
     = Resolved ["0A1B2C3D4E5F "
                 ++ Js.quoted "Apple Distribution: Example Org (ABCDE12345)"]
  /\ fst (uniqueSigningIdentifierForValue host "" initial)
     = Resolved (Some "0A1B2C3D4E5F").
Proof. cbv zeta. repeat split. Qed.

(** C2, amended: every string includes the empty string, so for a non-empty
    list of valid identities the resolution of the empty authority string
    takes the first entry of the list and returns its identifier; it returns
    [undefined] only when that first entry is the empty string. *)
Theorem C2_empty_authority_takes_first_identity host w entry others w1 :
  currentValidSigningIdentities host w = (Resolved (entry :: others), w1) ->
  uniqueSigningIdentifierForValue host "" w
    = (Resolved (if entry =? "" then None else Some (identifierOf entry)), w1).
Proof.
  intros Hc.
  apply (resolution_first_match host "" w [] entry others w1 Hc).
  - intros item [].
  - apply includes_empty.
Qed.

Lemma C2_empty_authority_takes_first_identity_witness :
  uniqueSigningIdentifierForValue (scripted (ipaScript "")) "" initial
    = (Resolved (Some "0A1B2C3D4E5F"),
       mkWorld [FindIdentity] 0 []).
Proof.
  exact (C2_empty_authority_takes_first_identity
           (scripted (ipaScript "")) initial
           ("0A1B2C3D4E5F "
            ++ Js.quoted "Apple Distribution: Example Org (ABCDE12345)")
           [] _ eq_refl).
Defined.

(* ------------------------------------------------------------------ *)
(** ** Paths and commands *)

Lemma split_not_nil sep s : Js.split sep s <> [].
Proof.
  destruct s as [|c r]; simpl; [discriminate|].
  destruct (Ascii.eqb c sep); [discriminate|].
  destruct (Js.split sep r); discriminate.
Qed.

(** A piece cut by [split] holds no separator: splitting it again gives it
    back. *)
Lemma split_piece sep s x : In x (Js.split sep s) -> Js.split sep x = [x].
Proof.
  revert x. induction s as [|c r IH]; simpl; intros x Hx.
  - destruct Hx as [<-|[]]. reflexivity.
  - destruct (Ascii.eqb c sep) eqn:Hc.
    + destruct Hx as [<-|Hx]; [reflexivity | now apply IH].
    + destruct (Js.split sep r) as [|y ys] eqn:Hr.
      * destruct Hx as [<-|[]]. simpl. now rewrite Hc.
      * destruct Hx as [<-|Hx].
        -- simpl. rewrite Hc. now rewrite (IH y (or_introl eq_refl)).
        -- apply IH. now right.
Qed.

Lemma last_in {A} (l : list A) d : l <> [] -> In (last l d) l.
Proof.
  induction l as [|a l IH]; [congruence|]. intros _.
  destruct l as [|b l]; [now left|].
  right. apply IH. discriminate.
Qed.

(** [path.basename] of a base name is that name. *)
Lemma basename_idempotent p : Path.basename (Path.basename p) = Path.basename p.
Proof.
  unfold Path.basename at 2 3.
  destruct (filter Path.nonEmpty (Js.split Js.SLASH p)) as [|a l] eqn:Hf.
  - reflexivity.
  - assert (Hin : In (last (a :: l) "")
                      (filter Path.nonEmpty (Js.split Js.SLASH p)))
      by (rewrite Hf; apply last_in; discriminate).
    apply filter_In in Hin. destruct Hin as [Hin Hne].
    unfold Path.basename. rewrite (split_piece _ _ _ Hin). cbn [filter].
    now rewrite Hne.
Qed.

Lemma exec_trace host c w o w' :
  exec host c w = (o, w') ->
  trace w' = (trace w ++ [c])%list /\ issued w' = issued w /\ logged w' = logged w.
Proof.
  unfold exec. destruct (spawn host (trace w) c); intros H; inversion H; now subst.
Qed.

(** The packaging stage runs one zip command, on the base names of the
    items, and resolves to the path of the archive that command writes. *)
Lemma packageForDelivery_resolved host apath items w delivery w' :
  packageForDelivery host apath items w = (Resolved delivery, w') ->
  let fileName := generate host (issued w) ++ ".zip" in
  delivery = Path.join [apath; fileName]
  /\ trace w' = (trace w ++ [ZipDelivery apath fileName
                              (Js.join " " (map Path.basename items))])%list
  /\ logged w' = logged w.
Proof.
  unfold packageForDelivery, shortid_generate, bind. cbv zeta.
  destruct (exec host _ _) as [[z|e] w1] eqn:Hz; [|discriminate].
  apply exec_trace in Hz. simpl in Hz. destruct Hz as (Ht & _ & Hl).
  destruct (negb (stderr z =? "") || Js.includes (stdout z) "FAIL");
    unfold throw, ret; intros H; inversion H; subst.
  now repeat split.
Qed.

(* ------------------------------------------------------------------ *)
(** ** The ipa pipeline on one bundle with a matching identity *)

(** One turn of the re-sign loop in which every step resolves. *)
Lemma resignFrom_turn host apath outBasePath value rest index items
    w u w1 certIdentifier w2 signingIdentifier w3 r w4 :
  let out := Path.join [outBasePath; Js.ofNat index] in
  exec host (Unzip (Js.trim value) out) w = (Resolved u, w1) ->
  extractCurrentSigningIdentifier host out w1 = (Resolved certIdentifier, w2) ->
  uniqueSigningIdentifierForValue host certIdentifier w2
    = (Resolved signingIdentifier, w3) ->
  isFalsy signingIdentifier = false ->
  exec host (Resign out (toString signingIdentifier)
               (Path.basename (Js.trim value)) apath) w3 = (Resolved r, w4) ->
  resignFrom host apath outBasePath (value :: rest) index items w
  = resignFrom host apath outBasePath rest (S index)
      (items ++ [Path.basename (Js.trim value)])%list w4.
Proof.
  intros out Hu Ha Hs Hf Hr. cbn [resignFrom]. fold out.
  rewrite (bind_resolved _ Hu), (bind_resolved _ Ha), (bind_resolved _ Hs), Hf.
  now rewrite (bind_resolved _ Hr).
Qed.




(* ------------------------------------------------------------------ *)
(** ** The xcarchive pipeline: reading the export reports *)


(** When every report of success has four components, the loop keeps the
    artifact of each report of success, in order, and skips the others. *)
Lemma collectExported_wellformed response : forall items w,
  (forall r, In r response -> succeeded r = true ->
             List.length (components r) = 4) ->
  collectExported response items w
  = (Resolved (items ++ map artifact (filter succeeded response))%list, w).
Proof.
  induction response as [|value rest IH]; intros items w Hwf; simpl.
  - now rewrite app_nil_r.
  - fold (succeeded value). destruct (succeeded value) eqn:Hs.
    + fold (components value).
      rewrite (Hwf value (or_introl eq_refl) Hs). simpl.
      fold (artifact value). rewrite IH.
      * now rewrite <- app_assoc.
      * intros r Hr. apply Hwf. now right.
    + apply IH. intros r Hr. apply Hwf. now right.
Qed.

(** One report of success without four components makes the loop throw,
    whatever the other reports are. *)
Lemma collectExported_malformed response : forall items w,
  (exists r, In r response /\ succeeded r = true
             /\ List.length (components r) <> 4) ->
  collectExported response items w = (Rejected (Some unexpectedResponse), w).
Proof.
  induction response as [|value rest IH]; intros items w (r & Hin & Hs & Hlen).
  - destruct Hin.
  - simpl. fold (succeeded value). fold (components value).
    destruct (succeeded value) eqn:Hv.
    + destruct (List.length (components value) =? 4)%nat eqn:Hc; simpl.
      * apply IH. exists r. destruct Hin as [->|Hin]; [|now auto].
        apply Nat.eqb_eq in Hc. contradiction.
      * reflexivity.
    + apply IH. exists r. destruct Hin as [->|Hin]; [congruence | now auto].
Qed.

(** The stages of [signxcarchive] up to the export reports. *)
Ltac xc_front Hx Hf He Hall :=
  rewrite (bind_resolved _ Hx), (bind_resolved _ Hf), He;
  change (negb ("" =? "")) with false; cbv iota;
  rewrite (bind_resolved _ Hall).

(** C4, as stated, fails: the code cuts the first line of the trimmed
    output at single spaces, not at white space.  For a report of success
    whose first line is 'Exported<TAB>My App to: <path>', the line has five
    white-space tokens and four space-separated components: the report is
    accepted, and the run resolves with a delivery archive. *)
Lemma C4_counterexample :
  let report := mkExecResult tabbedReport "" in
  let host :=
    scripted (xcScript tabbedReport (exported "/tmp/id0/signed/B/App.ipa")
                ("OK" ++ nl)) in
  succeeded report = true
  /\ firstLineTokens report
     = ["Exported"; "My"; "App"; "to:"; "/tmp/id0/signed/A/MyApp.ipa"]
  /\ List.length (components report) = 4
  /\ signxcarchive host "/uploads/app.zip" "/tmp/" initial
     = (Resolved "/tmp/id0/signed/id1.zip",
        mkWorld
          [Unzip "/uploads/app.zip" "/tmp/id0"; Find "/tmp/id0" "*.xcarchive";
           ExportArchive "/tmp/id0/A.xcarchive" "/tmp/id0/signed/A"
             "/tmp/id0/options.plist";
           ExportArchive "/tmp/id0/B.xcarchive" "/tmp/id0/signed/B"
             "/tmp/id0/options.plist";
           ZipDelivery "/tmp/id0/signed" "id1.zip" "MyApp.ipa App.ipa"]
          2 []).
Proof. cbv zeta. repeat split; vm_compute; reflexivity. Qed.

(** C4, amended: when one export of the batch reports success
    ('EXPORT SUCCEEDED' in its output) and the first line of its trimmed
    output, cut at every single space, does not give exactly four
    components, the run of [signxcarchive] fails: the error 'Unexpected
    response from archive export' is raised and logged, the caller gets a
    rejection, and no packaging command is run, whatever the other exports
    of the batch reported. *)
Theorem C4_malformed_success_fails_run host archiveFilePath workspace w
    apath w1 findResult w2 response w3 :
  extractArchiveContents host archiveFilePath workspace w = (Resolved apath, w1) ->
  exec host (Find apath "*.xcarchive") w1 = (Resolved findResult, w2) ->
  stderr findResult = "" ->
  promiseAll (exportsOf host apath findResult) w2 = (Resolved response, w3) ->
  (exists r, In r response /\ succeeded r = true
             /\ List.length (components r) <> 4) ->
  signxcarchive host archiveFilePath workspace w
  = (Rejected None,
     mkWorld (trace w3) (issued w3)
       (logged w3 ++ [(ConsoleLog, "Unexpected response from archive export")])).
Proof.
  intros Hx Hf He Hall Hbad.
  unfold signxcarchive. cbv zeta.
  match goal with
  | |- bind (tryCatch ?body ?handler) _ _ = _ =>
      assert (Hbody : body w = (Rejected (Some unexpectedResponse), w3))
  end.
  { xc_front Hx Hf He Hall.
    now rewrite (bind_rejected _ (collectExported_malformed response [] w3 Hbad)). }
  unfold bind at 1. now rewrite (tryCatch_rejected _ Hbody).
Qed.

Lemma C4_malformed_success_fails_run_witness :
  let host :=
    scripted (xcScript
                ("Exported My App to: /tmp/id0/signed/A/My App.ipa" ++ nl
                 ++ "** EXPORT SUCCEEDED **" ++ nl)
                (exported "/tmp/id0/signed/B/App.ipa")
                ("OK" ++ nl)) in
  signxcarchive host "/uploads/app.zip" "/tmp/" initial
  = (Rejected None,
     mkWorld
       [Unzip "/uploads/app.zip" "/tmp/id0"; Find "/tmp/id0" "*.xcarchive";
        ExportArchive "/tmp/id0/A.xcarchive" "/tmp/id0/signed/A"
          "/tmp/id0/options.plist";
        ExportArchive "/tmp/id0/B.xcarchive" "/tmp/id0/signed/B"
          "/tmp/id0/options.plist"]
       1 [(ConsoleLog, "Unexpected response from archive export")]).
Proof.
  intros host.
  refine (C4_malformed_success_fails_run host "/uploads/app.zip" "/tmp/" initial
            "/tmp/id0" _ _ _ _ _ eq_refl eq_refl eq_refl eq_refl _).
  eexists. split; [left; reflexivity|]. split; [reflexivity|].
  vm_compute. discriminate.
Defined.

(** The packaging stage runs its zip command whether or not it succeeds,
    and writes no line. *)
Lemma packageForDelivery_trace host apath items w o w' :
  packageForDelivery host apath items w = (o, w') ->
  trace w' = (trace w ++ [ZipDelivery apath (generate host (issued w) ++ ".zip")
                            (Js.join " " (map Path.basename items))])%list
  /\ logged w' = logged w.
Proof.
  unfold packageForDelivery, shortid_generate, bind.
  destruct (exec host _ _) as [[z|e] w1] eqn:Hz;
    apply exec_trace in Hz; simpl in Hz; destruct Hz as (Ht & _ & Hl).
  - destruct (negb (stderr z =? "") || Js.includes (stdout z) "FAIL");
      unfold throw, ret; intros H; inversion H; subst; now split.
  - intros H; inversion H; subst; now split.
Qed.

(** C5: the exports whose output lacks 'EXPORT SUCCEEDED' are left out of
    the collected items and raise nothing; the items are the last components
    of the first output line of the exports that report success, in order;
    and the delivery archive is zipped from exactly the base names of those
    artifact paths, in the [signed] directory of the workspace. *)
Theorem C5_unsuccessful_exports_are_skipped host archiveFilePath workspace w
    apath w1 findResult w2 response w3 :
  extractArchiveContents host archiveFilePath workspace w = (Resolved apath, w1) ->
  exec host (Find apath "*.xcarchive") w1 = (Resolved findResult, w2) ->
  stderr findResult = "" ->
  promiseAll (exportsOf host apath findResult) w2 = (Resolved response, w3) ->
  (forall r, In r response -> succeeded r = true ->
             List.length (components r) = 4) ->
  let items := map artifact (filter succeeded response) in
  let dir := Path.join [apath; "signed"] in
  let fileName := generate host (issued w3) ++ ".zip" in
  let run := signxcarchive host archiveFilePath workspace w in
  collectExported response [] w3 = (Resolved items, w3)
  /\ run = packageForDelivery host dir items w3
  /\ trace (snd run)
     = (trace w3 ++ [ZipDelivery dir fileName
                       (Js.join " " (map Path.basename items))])%list
  /\ logged (snd run) = logged w3
  /\ (forall delivery w', run = (Resolved delivery, w') ->
        delivery = Path.join [dir; fileName]).
Proof.
  intros Hx Hf He Hall Hwf items dir fileName run.
  pose proof (collectExported_wellformed response [] w3 Hwf) as Hc.
  cbn [app] in Hc. fold items in Hc.
  assert (Hrun : run = packageForDelivery host dir items w3).
  { unfold run, signxcarchive. cbv zeta.
    match goal with
    | |- bind (tryCatch ?body ?handler) _ _ = _ =>
        assert (Hbody : body w
                        = (Resolved (packageForDelivery host dir items), w3))
    end.
    { xc_front Hx Hf He Hall. now rewrite (bind_resolved _ Hc). }
    unfold bind at 1. now rewrite (tryCatch_resolved _ Hbody). }
  split; [exact Hc|]. split; [exact Hrun|].
  destruct (packageForDelivery host dir items w3) as [o w'] eqn:Hp.
  destruct (packageForDelivery_trace _ _ _ _ _ _ Hp) as (Ht & Hl).
  rewrite Hrun. cbn [snd]. split; [exact Ht|]. split; [exact Hl|].
  intros delivery w'' Heq. inversion Heq; subst.
  now destruct (packageForDelivery_resolved _ _ _ _ _ _ Hp) as (Hd & _).
Qed.

Lemma C5_unsuccessful_exports_are_skipped_witness :
  let host :=
    scripted (xcScript (exported "/tmp/id0/signed/A/App.ipa") notExported
                ("OK" ++ nl)) in
  signxcarchive host "/uploads/app.zip" "/tmp/" initial
  = (Resolved "/tmp/id0/signed/id1.zip",
     mkWorld
       [Unzip "/uploads/app.zip" "/tmp/id0"; Find "/tmp/id0" "*.xcarchive";
        ExportArchive "/tmp/id0/A.xcarchive" "/tmp/id0/signed/A"
          "/tmp/id0/options.plist";
        ExportArchive "/tmp/id0/B.xcarchive" "/tmp/id0/signed/B"
          "/tmp/id0/options.plist";
        ZipDelivery "/tmp/id0/signed" "id1.zip" "App.ipa"] 2 []).
Proof.
  intros host.
  refine (eq_trans
            (proj1 (proj2
               (C5_unsuccessful_exports_are_skipped host "/uploads/app.zip"
                  "/tmp/" initial "/tmp/id0" _ _ _ _ _
                  eq_refl eq_refl eq_refl eq_refl _)))
            eq_refl).
  intros r [<-|[<-|[]]]; vm_compute; [reflexivity | discriminate].
Defined.

(* ------------------------------------------------------------------ *)
(** ** The xcarchive pipeline: what the caller sees of a failure *)


(** C6, at an input where the packaging stage fails (the zip command prints
    'FAIL'): [signxcarchive] does not catch the error.  The caller gets a
    rejection that carries the error 'Unable to create delivery package' and
    nothing is logged, while the January 2018 [signxcarchive] catches the
    same failure, logs it and rejects without a reason; and a failure of the
    result parsing on another input is seen by the caller as a rejection
    without a reason, so the two causes are told apart by the caller. *)
Theorem C6_packaging_failure_escapes_catch :
  let host :=
    scripted (xcScript (exported "/tmp/id0/signed/A/App.ipa") notExported
                ("FAIL" ++ nl)) in
  let parsing :=
    scripted (xcScript
                ("Exported My App to: /tmp/id0/signed/A/My App.ipa" ++ nl
                 ++ "** EXPORT SUCCEEDED **" ++ nl)
                notExported ("OK" ++ nl)) in
  let stages :=
    [Unzip "/uploads/app.zip" "/tmp/id0"; Find "/tmp/id0" "*.xcarchive";
     ExportArchive "/tmp/id0/A.xcarchive" "/tmp/id0/signed/A"
       "/tmp/id0/options.plist";
     ExportArchive "/tmp/id0/B.xcarchive" "/tmp/id0/signed/B"
       "/tmp/id0/options.plist"] in
  signxcarchive host "/uploads/app.zip" "/tmp/" initial
  = (Rejected (Some packagingFailed),
     mkWorld (stages ++ [ZipDelivery "/tmp/id0/signed" "id1.zip" "App.ipa"])
       2 [])
  /\ Legacy.signxcarchive host "/uploads/app.zip" "/tmp/" initial
     = (Rejected None,
        mkWorld (stages ++ [ZipInline "/tmp/id0/id1.zip"
                              "/tmp/id0/signed/A/App.ipa"])
          2 [(LoggerError, "Unable to create delivery package")])
  /\ signxcarchive parsing "/uploads/app.zip" "/tmp/" initial
     = (Rejected None,
        mkWorld stages 1
          [(ConsoleLog, "Unexpected response from archive export")]).
Proof. cbv zeta. split; [|split]; vm_compute; reflexivity. Qed.

(* ------------------------------------------------------------------ *)
(** ** The ipa pipeline: what the caller sees of a failure *)

Lemma exec_reason host c w e w' :
  exec host c w = (Rejected e, w') -> exists err, e = Some err.
Proof.
  unfold exec. destruct (spawn host (trace w) c) as [err|r]; intros H;
    inversion H; subst. now exists err.
Qed.

Ltac reasoned :=
  repeat match goal with
    | H : bind _ _ _ = (Rejected _, _) |- _ =>
        apply bind_inv in H;
        destruct H as [(? & H & ?)|(? & ? & ? & H)]; subst
    | H : exec _ _ _ = (Rejected _, _) |- _ => exact (exec_reason _ _ _ _ _ H)
    | H : throw _ _ = (Rejected _, _) |- _ => inversion H; subst; eauto
    | H : ret _ _ = (Rejected _, _) |- _ => discriminate H
    | H : Rejected _ = Rejected _ |- _ => inversion H; subst; clear H
    | H : (if ?b then _ else _) _ = (Rejected _, _) |- _ => destruct b
    end.

Lemma currentValidSigningIdentities_reason host w e w' :
  currentValidSigningIdentities host w = (Rejected e, w') ->
  exists err, e = Some err.
Proof. unfold currentValidSigningIdentities. intros H. reasoned. Qed.

Lemma extractCurrentSigningIdentifier_reason host apath w e w' :
  extractCurrentSigningIdentifier host apath w = (Rejected e, w') ->
  exists err, e = Some err.
Proof.
  unfold extractCurrentSigningIdentifier. intros H. reasoned.
  eapply currentValidSigningIdentities_reason; eassumption.
Qed.

Lemma uniqueSigningIdentifierForValue_reason host value w e w' :
  uniqueSigningIdentifierForValue host value w = (Rejected e, w') ->
  exists err, e = Some err.
Proof.
  unfold uniqueSigningIdentifierForValue. intros H. reasoned.
  - eapply currentValidSigningIdentities_reason; eassumption.
  - destruct (find _ _); reasoned.
Qed.

Lemma extractArchiveContents_reason host archiveFilePath workspace w e w' :
  extractArchiveContents host archiveFilePath workspace w = (Rejected e, w') ->
  exists err, e = Some err.
Proof.
  unfold extractArchiveContents. intros H. reasoned.
  unfold shortid_generate in *. discriminate.
Qed.

Lemma packageForDelivery_reason host apath items w e w' :
  packageForDelivery host apath items w = (Rejected e, w') ->
  exists err, e = Some err.
Proof.
  unfold packageForDelivery. intros H. reasoned.
  unfold shortid_generate in *. discriminate.
Qed.

(** A failing step of the re-sign loop rejects the loop with the reason of
    that step. *)
Lemma resignFrom_propagates host apath outBasePath results index w e w' :
  ResignFailure host apath outBasePath results index w e w' ->
  (forall items,
     resignFrom host apath outBasePath results index items w = (Rejected e, w'))
  /\ exists err, e = Some err.
Proof.
  induction 1 as
    [ value rest index w e w' Hu
    | value rest index w u w1 e w' out Hu Ha
    | value rest index w u w1 cert w2 e w' out Hu Ha Hs
    | value rest index w u w1 cert w2 sid w' out Hu Ha Hs Hf
    | value rest index w u w1 cert w2 sid w3 e w' out Hu Ha Hs Hf Hr
    | value rest index w u w1 cert w2 sid w3 r w4 e w' out Hu Ha Hs Hf Hr Hrest IH ].
  - split; [|exact (exec_reason _ _ _ _ _ Hu)].
    intros items. cbn [resignFrom]. now rewrite (bind_rejected _ Hu).
  - split; [|exact (extractCurrentSigningIdentifier_reason _ _ _ _ _ Ha)].
    intros items. cbn [resignFrom]. fold out.
    now rewrite (bind_resolved _ Hu), (bind_rejected _ Ha).
  - split; [|exact (uniqueSigningIdentifierForValue_reason _ _ _ _ _ Hs)].
    intros items. cbn [resignFrom]. fold out.
    now rewrite (bind_resolved _ Hu), (bind_resolved _ Ha), (bind_rejected _ Hs).
  - split; [|eauto].
    intros items. cbn [resignFrom]. fold out.
    now rewrite (bind_resolved _ Hu), (bind_resolved _ Ha), (bind_resolved _ Hs), Hf.
  - split; [|exact (exec_reason _ _ _ _ _ Hr)].
    intros items. cbn [resignFrom]. fold out.
    rewrite (bind_resolved _ Hu), (bind_resolved _ Ha), (bind_resolved _ Hs), Hf.
    now rewrite (bind_rejected _ Hr).
  - destruct IH as (IH & Hsome). split; [|exact Hsome].
    intros items.
    rewrite (resignFrom_turn host apath outBasePath value rest index items
               _ _ _ _ _ _ _ _ _ Hu Ha Hs Hf Hr).
    apply IH.
Qed.

(** C7: [signipaarchive] has no catch clause.  Whatever stage fails (the
    extraction, the search, a step of the re-sign loop for some bundle:
    unpacking, inspection, resolution, the missing identity, signing; or the
    packaging), the run is rejected with the reason that stage was rejected
    with, and that reason is always an error value, never the empty reason
    of [Promise.reject()]. *)
Theorem C7_ipa_failure_propagates host archiveFilePath workspace w e w' :
  IpaStageFailure host archiveFilePath workspace w e w' ->
  signipaarchive host archiveFilePath workspace w = (Rejected e, w')
  /\ exists err, e = Some err.
Proof.
  intros H. unfold signipaarchive. cbv zeta.
  destruct H as
    [ e w' Hx
    | apath w1 e w' Hx Hf
    | apath w1 findResult w' Hx Hf He
    | apath w1 findResult w2 e w' Hx Hf He Hloop
    | apath w1 findResult w2 items w3 e w' Hx Hf He Hloop Hp ].
  - split; [|exact (extractArchiveContents_reason _ _ _ _ _ _ Hx)].
    now rewrite (bind_rejected _ Hx).
  - split; [|exact (exec_reason _ _ _ _ _ Hf)].
    now rewrite (bind_resolved _ Hx), (bind_rejected _ Hf).
  - split; [|eauto].
    rewrite (bind_resolved _ Hx), (bind_resolved _ Hf).
    apply String.eqb_neq in He. now rewrite He.
  - apply resignFrom_propagates in Hloop. destruct Hloop as (Hloop & Hsome).
    split; [|exact Hsome].
    rewrite (bind_resolved _ Hx), (bind_resolved _ Hf), He.
    change (negb ("" =? "")) with false. cbv iota.
    now rewrite (bind_rejected _ (Hloop [])).
  - split; [|exact (packageForDelivery_reason _ _ _ _ _ _ Hp)].
    rewrite (bind_resolved _ Hx), (bind_resolved _ Hf), He.
    change (negb ("" =? "")) with false. cbv iota.
    now rewrite (bind_resolved _ Hloop).
Qed.

Lemma C7_ipa_failure_propagates_witness :
  let host :=
    refusing isResign (ExecError "Command failed: codesign")
      (scripted (ipaScript "Apple Distribution: Example Org (ABCDE12345)")) in
  signipaarchive host "/uploads/app.zip" "/tmp/" initial
  = (Rejected (Some (ExecError "Command failed: codesign")),
     mkWorld
       [Unzip "/uploads/app.zip" "/tmp/id0"; Find "/tmp/id0" "*.ipa";
        Unzip "/tmp/id0/App.ipa" "/tmp/id0/signed/0";
        ShowAuthority "/tmp/id0/signed/0"; FindIdentity; FindIdentity;
        Resign "/tmp/id0/signed/0" "0A1B2C3D4E5F" "App.ipa" "/tmp/id0"]
       1 []).
Proof.
  intros host.
  refine (proj1 (C7_ipa_failure_propagates host "/uploads/app.zip" "/tmp/"
                   initial _ _ _)).
  eapply ResignFails; [lazy; reflexivity | lazy; reflexivity | reflexivity |].
  eapply SigningFails; lazy; reflexivity.
Defined.

(** Conversely, a rejected re-sign loop was rejected by one of its steps, and
    a rejected run of [signipaarchive] by one of its stages. *)
Lemma resignFrom_rejected host apath outBasePath results :
  forall index items w e w',
    resignFrom host apath outBasePath results index items w = (Rejected e, w') ->
    ResignFailure host apath outBasePath results index w e w'.
Proof.
  induction results as [|value rest IH]; intros index items w e w' H.
  - discriminate H.
  - cbn [resignFrom] in H.
    apply bind_inv in H. destruct H as [(e0 & Hu & He)|(u & w1 & Hu & H)].
    { inversion He; subst. now apply UnzipFails. }
    apply bind_inv in H. destruct H as [(e0 & Ha & He)|(cert & w2 & Ha & H)].
    { inversion He; subst. eapply InspectionFails; eassumption. }
    apply bind_inv in H. destruct H as [(e0 & Hs & He)|(sid & w3 & Hs & H)].
    { inversion He; subst. eapply ResolutionFails; eassumption. }
    destruct (isFalsy sid) eqn:Hf.
    { inversion H; subst. eapply NoIdentity; eassumption. }
    apply bind_inv in H. destruct H as [(e0 & Hr & He)|(r & w4 & Hr & H)].
    { inversion He; subst. eapply SigningFails; eassumption. }
    eapply LaterBundleFails; try eassumption. eapply IH; eassumption.
Qed.

Lemma signipaarchive_rejected host archiveFilePath workspace w e w' :
  signipaarchive host archiveFilePath workspace w = (Rejected e, w') ->
  IpaStageFailure host archiveFilePath workspace w e w'.
Proof.
  unfold signipaarchive. cbv zeta. intros H.
  apply bind_inv in H. destruct H as [(e0 & Hx & He)|(apath & w1 & Hx & H)].
  { inversion He; subst. now apply ExtractionFails. }
  apply bind_inv in H. destruct H as [(e0 & Hf & He)|(fr & w2 & Hf & H)].
  { inversion He; subst. eapply SearchFails; eassumption. }
  destruct (stderr fr =? "") eqn:Herr.
  - apply String.eqb_eq in Herr. cbn [negb] in H.
    apply bind_inv in H. destruct H as [(e0 & Hl & He)|(items & w3 & Hl & H)].
    + inversion He; subst. eapply ResignFails; try eassumption.
      eapply resignFrom_rejected; eassumption.
    + eapply PackagingFails; eassumption.
  - apply String.eqb_neq in Herr. cbn [negb] in H. inversion H; subst.
    eapply SearchComplains; eassumption.
Qed.

(* ------------------------------------------------------------------ *)
(** ** An archive without bundles *)

(** C8, as stated, fails: when the search prints nothing and the zip
    command reports success, both pipelines return a delivery archive path.
    [signipaarchive] zips an empty list of names; [signxcarchive] exports the
    empty path, collects nothing, and zips an empty list of names. *)
Lemma C8_counterexample :
  let host := scripted emptyScript in
  exec host (Find "/tmp/id0" "*.ipa")
    (mkWorld [Unzip "/uploads/app.zip" "/tmp/id0"] 1 [])
  = (Resolved (mkExecResult "" ""),
     mkWorld [Unzip "/uploads/app.zip" "/tmp/id0"; Find "/tmp/id0" "*.ipa"] 1 [])
  /\ signipaarchive host "/uploads/app.zip" "/tmp/" initial
     = (Resolved "/tmp/id0/id1.zip",
        mkWorld [Unzip "/uploads/app.zip" "/tmp/id0"; Find "/tmp/id0" "*.ipa";
                 ZipDelivery "/tmp/id0" "id1.zip" ""] 2 [])
  /\ signxcarchive host "/uploads/app.zip" "/tmp/" initial
     = (Resolved "/tmp/id0/signed/id1.zip",
        mkWorld [Unzip "/uploads/app.zip" "/tmp/id0";
                 Find "/tmp/id0" "*.xcarchive";
                 ExportArchive "" "/tmp/id0/signed" "/tmp/id0/options.plist";
                 ZipDelivery "/tmp/id0/signed" "id1.zip" ""] 2 []).
Proof. cbv zeta. split; [|split]; vm_compute; reflexivity. Qed.

(** C8, amended: neither pipeline tests the result of the search for
    emptiness.  When the search prints nothing, [signipaarchive] re-signs
    nothing and settles as the packaging of an empty list of items settles;
    [signxcarchive] starts one export, of the empty path, and when that
    export resolves without reporting success it settles as the packaging of
    an empty list of items settles. *)
Theorem C8_empty_search_reaches_packaging host archiveFilePath workspace w
    apath w1 :
  extractArchiveContents host archiveFilePath workspace w = (Resolved apath, w1) ->
  (forall findResult w2,
     exec host (Find apath "*.ipa") w1 = (Resolved findResult, w2) ->
     stdout findResult = "" -> stderr findResult = "" ->
     signipaarchive host archiveFilePath workspace w
     = packageForDelivery host apath [] w2)
  /\ (forall findResult w2 r w3,
        exec host (Find apath "*.xcarchive") w1 = (Resolved findResult, w2) ->
        stdout findResult = "" -> stderr findResult = "" ->
        exec host (exportCommand apath "signed" "") w2 = (Resolved r, w3) ->
        succeeded r = false ->
        signxcarchive host archiveFilePath workspace w
        = packageForDelivery host (Path.join [apath; "signed"]) [] w3).
Proof.
  intros Hx. split.
  - intros findResult w2 Hf Hout Herr.
    unfold signipaarchive. cbv zeta.
    rewrite (bind_resolved _ Hx), (bind_resolved _ Hf), Herr, Hout.
    reflexivity.
  - intros findResult w2 r w3 Hf Hout Herr He Hs.
    assert (Hall : promiseAll (exportsOf host apath findResult) w2
                   = (Resolved [r], w3)).
    { unfold exportsOf. rewrite Hout. cbn. now rewrite He. }
    assert (Hc : collectExported [r] [] w3 = (Resolved [], w3)).
    { cbn [collectExported]. fold (succeeded r). now rewrite Hs. }
    unfold signxcarchive. cbv zeta.
    match goal with
    | |- bind (tryCatch ?body ?handler) _ _ = _ =>
        assert (Hbody : body w
                        = (Resolved (packageForDelivery host
                                       (Path.join [apath; "signed"]) []), w3))
    end.
    { xc_front Hx Hf Herr Hall. now rewrite (bind_resolved _ Hc). }
    unfold bind at 1. now rewrite (tryCatch_resolved _ Hbody).
Qed.

Lemma C8_empty_search_reaches_packaging_witness :
  let host := scripted emptyScript in
  signipaarchive host "/uploads/app.zip" "/tmp/" initial
  = packageForDelivery host "/tmp/id0" []
      (mkWorld [Unzip "/uploads/app.zip" "/tmp/id0"; Find "/tmp/id0" "*.ipa"]
         1 [])
  /\ signxcarchive host "/uploads/app.zip" "/tmp/" initial
     = packageForDelivery host "/tmp/id0/signed" []
         (mkWorld [Unzip "/uploads/app.zip" "/tmp/id0";
                   Find "/tmp/id0" "*.xcarchive";
                   ExportArchive "" "/tmp/id0/signed" "/tmp/id0/options.plist"]
            1 []).
Proof.
  intros host.
  pose proof (C8_empty_search_reaches_packaging host "/uploads/app.zip" "/tmp/"
                initial "/tmp/id0" _ eq_refl) as [Hipa Hxc].
  split.
  - exact (Hipa _ _ eq_refl eq_refl eq_refl).
  - exact (Hxc _ _ _ _ eq_refl eq_refl eq_refl eq_refl eq_refl).
Defined.

(* ------------------------------------------------------------------ *)
(** ** Shadow entries under [__MACOSX] *)

(** [signipaarchive] drops the shadow entries before its loop. *)
Lemma ipa_bundles_exclude_shadow lines value :
  In value (filter isBundle lines) -> Js.includes value "__MACOSX" = false.
Proof.
  intros H. apply filter_In in H. destruct H as [_ H].
  unfold isBundle in H. apply andb_prop in H. destruct H as [_ H].
  now apply negb_true_iff in H.
Qed.

(** C9, at an archive made on macOS in which the search finds
    [A.xcarchive] and its shadow [__MACOSX/A.xcarchive]: [signxcarchive]
    does not filter the result of the search, and it runs the export on the
    shadow entry as well.  [signipaarchive], on the like archive with
    [App.ipa], drops the shadow entry and unpacks and re-signs [App.ipa]
    only. *)
Theorem C9_xcarchive_exports_shadow_entry :
  Js.includes "/tmp/id0/__MACOSX/A.xcarchive" "__MACOSX" = true
  /\ signxcarchive (scripted (shadowScript "A.xcarchive"))
       "/uploads/app.zip" "/tmp/" initial
     = (Resolved "/tmp/id0/signed/id1.zip",
        mkWorld
          [Unzip "/uploads/app.zip" "/tmp/id0"; Find "/tmp/id0" "*.xcarchive";
           ExportArchive "/tmp/id0/A.xcarchive" "/tmp/id0/signed/A"
             "/tmp/id0/options.plist";
           ExportArchive "/tmp/id0/__MACOSX/A.xcarchive" "/tmp/id0/signed/A"
             "/tmp/id0/options.plist";
           ZipDelivery "/tmp/id0/signed" "id1.zip" "App.ipa App.ipa"] 2 [])
  /\ signipaarchive (scripted (shadowScript "App.ipa"))
       "/uploads/app.zip" "/tmp/" initial
     = (Resolved "/tmp/id0/id1.zip",
        mkWorld
          [Unzip "/uploads/app.zip" "/tmp/id0"; Find "/tmp/id0" "*.ipa";
           Unzip "/tmp/id0/App.ipa" "/tmp/id0/signed/0";
           ShowAuthority "/tmp/id0/signed/0"; FindIdentity; FindIdentity;
           Resign "/tmp/id0/signed/0" "0A1B2C3D4E5F" "App.ipa" "/tmp/id0";
           ZipDelivery "/tmp/id0" "id1.zip" "App.ipa"] 2 []).
Proof. split; [|split]; vm_compute; reflexivity. Qed.

(* ------------------------------------------------------------------ *)
(** ** The two generations of [signxcarchive] *)

Lemma promiseAll_reason {A} (ps : list (Async A)) :
  (forall p, In p ps -> forall w e w',
      p w = (Rejected e, w') -> exists err, e = Some err) ->
  forall w e w', promiseAll ps w = (Rejected e, w') -> exists err, e = Some err.
Proof.
  induction ps as [|p rest IH]; intros Hps w e w'; simpl; [discriminate|].
  destruct (p w) as [[a|e1] w1] eqn:Hp;
    destruct (promiseAll rest w1) as [[l|e2] w2] eqn:Hrest;
    intros H; inversion H; subst.
  - eapply IH; [|exact Hrest]. intros q Hq. apply Hps. now right.
  - eapply (Hps p (or_introl eq_refl)); exact Hp.
  - eapply (Hps p (or_introl eq_refl)); exact Hp.
Qed.

Lemma collectExported_reason response : forall items w e w',
  collectExported response items w = (Rejected e, w') -> exists err, e = Some err.
Proof.
  induction response as [|value rest IH]; intros items w e w'; simpl.
  - discriminate.
  - destruct (Js.includes (stdout value) EXPORT_SUCCEEDED); [|apply IH].
    destruct (negb _); [|apply IH].
    intros H; inversion H; eauto.
Qed.

Lemma exportStages_reason host archiveFilePath workspace w e w' :
  exportStages host archiveFilePath workspace w = (Rejected e, w') ->
  exists err, e = Some err.
Proof.
  unfold exportStages. intros H. reasoned.
  - eapply extractArchiveContents_reason; eassumption.
  - eapply promiseAll_reason; [|eassumption].
    unfold exportsOf. intros p Hp. apply in_map_iff in Hp.
    destruct Hp as (element & <- & _). intros ? ? ?. apply exec_reason.
  - eapply collectExported_reason; eassumption.
Qed.

(** June 2018: a failure of the shared stages is caught, logged and
    replaced by a rejection without a reason; after them the run settles as
    the packaging in the [signed] directory settles. *)
Lemma signxcarchive_after_stages host archiveFilePath workspace w :
  match exportStages host archiveFilePath workspace w with
  | (Resolved (apath, items), w3) =>
      signxcarchive host archiveFilePath workspace w
      = packageForDelivery host (Path.join [apath; "signed"]) items w3
  | (Rejected e, w3) =>
      exists err, e = Some err
        /\ signxcarchive host archiveFilePath workspace w
           = (Rejected None, afterLog ConsoleLog (message err) w3)
  end.
Proof.
  destruct (exportStages host archiveFilePath workspace w) as [[[apath items]|e] w3]
    eqn:Hs.
  - revert Hs. unfold signxcarchive, exportStages, exportsOf, tryCatch, bind.
    cbv zeta.
    destruct (extractArchiveContents _ _ _ _) as [[ap|?] ?]; [|discriminate].
    destruct (exec _ _ _) as [[fr|?] ?]; [|discriminate].
    destruct (negb _); [discriminate|].
    destruct (promiseAll _ _) as [[response|?] ?]; [|discriminate].
    destruct (collectExported _ _ _) as [[its|?] ?]; [|discriminate].
    unfold ret. intros H. inversion H. subst. reflexivity.
  - destruct (exportStages_reason _ _ _ _ _ _ Hs) as (err & ->).
    exists err. split; [reflexivity|].
    revert Hs. unfold signxcarchive, exportStages, exportsOf, tryCatch, bind.
    cbv zeta.
    destruct (extractArchiveContents _ _ _ _) as [[ap|?] ?];
      [|intros H; inversion H; subst; reflexivity].
    destruct (exec _ _ _) as [[fr|?] ?];
      [|intros H; inversion H; subst; reflexivity].
    destruct (negb _); [intros H; inversion H; subst; reflexivity|].
    destruct (promiseAll _ _) as [[response|?] ?];
      [|intros H; inversion H; subst; reflexivity].
    destruct (collectExported _ _ _) as [[its|?] ?];
      [discriminate | intros H; inversion H; subst; reflexivity].
Qed.

(** January 2018: a failure of the shared stages is caught, logged and
    replaced by a rejection without a reason; after them the run zips the
    items as they are, joined by commas, into an archive in the extraction
    directory, and resolves to the path of that archive if it resolves. *)
Lemma legacy_signxcarchive_after_stages host archiveFilePath workspace w :
  let run := Legacy.signxcarchive host archiveFilePath workspace w in
  match exportStages host archiveFilePath workspace w with
  | (Resolved (apath, items), w3) =>
      let deliveryFile :=
        Path.join [apath; generate host (issued w3) ++ ".zip"] in
      trace (snd run)
      = (trace w3 ++ [ZipInline deliveryFile (Js.join "," items)])%list
      /\ forall delivery w', run = (Resolved delivery, w') -> delivery = deliveryFile
  | (Rejected e, w3) =>
      exists err, e = Some err
        /\ run = (Rejected None, afterLog LoggerError (message err) w3)
  end.
Proof.
  intros run.
  destruct (exportStages host archiveFilePath workspace w) as [[[apath items]|e] w3]
    eqn:Hs.
  - revert Hs. unfold run, Legacy.signxcarchive, exportStages, exportsOf,
      extractArchiveContents, tryCatch, bind, shortid_generate.
    cbv zeta.
    destruct (exec _ (Unzip _ _) _) as [[u|?] ?]; [|discriminate].
    unfold ret. cbv beta iota.
    destruct (exec _ (Find _ _) _) as [[fr|?] ?]; [|discriminate].
    destruct (negb _); [discriminate|].
    destruct (promiseAll _ _) as [[response|?] ?]; [|discriminate].
    destruct (collectExported _ _ _) as [[its|?] ?]; [|discriminate].
    intros H. inversion H. subst. clear H.
    destruct (exec _ (ZipInline _ _) _) as [[z|err] w4] eqn:Hz;
      apply exec_trace in Hz; cbn [trace issued logged] in Hz;
      destruct Hz as (Ht & _ & _).
    + destruct (negb (stderr z =? "") || Js.includes (stdout z) "FAIL");
        cbn; (split; [exact Ht|]); intros delivery w' H; now inversion H.
    + destruct err; cbn; (split; [exact Ht|]); intros delivery w' H; now inversion H.
  - destruct (exportStages_reason _ _ _ _ _ _ Hs) as (err & ->).
    exists err. split; [reflexivity|].
    revert Hs. unfold run, Legacy.signxcarchive, exportStages, exportsOf,
      extractArchiveContents, tryCatch, bind, shortid_generate.
    cbv zeta.
    destruct (exec _ (Unzip _ _) _) as [[u|?] ?];
      [|intros H; inversion H; subst; reflexivity].
    unfold ret. cbv beta iota.
    destruct (exec _ (Find _ _) _) as [[fr|?] ?];
      [|intros H; inversion H; subst; reflexivity].
    destruct (negb _); [intros H; inversion H; subst; reflexivity|].
    destruct (promiseAll _ _) as [[response|?] ?];
      [|intros H; inversion H; subst; reflexivity].
    destruct (collectExported _ _ _) as [[its|?] ?];
      [discriminate | intros H; inversion H; subst; reflexivity].
Qed.

(** C10, as stated, fails: on an archive whose export of [A.xcarchive]
    succeeds and whose zip command succeeds, the January 2018 version zips
    the artifact under its full path into an archive in the extraction
    directory, and the June 2018 version zips the base name of the artifact
    into an archive in the [signed] directory; the two return different
    paths of archives with different entries. *)
Lemma C10_counterexample :
  let host :=
    scripted (xcScript (exported "/tmp/id0/signed/A/App.ipa") notExported
                ("OK" ++ nl)) in
  let stages :=
    [Unzip "/uploads/app.zip" "/tmp/id0"; Find "/tmp/id0" "*.xcarchive";
     ExportArchive "/tmp/id0/A.xcarchive" "/tmp/id0/signed/A"
       "/tmp/id0/options.plist";
     ExportArchive "/tmp/id0/B.xcarchive" "/tmp/id0/signed/B"
       "/tmp/id0/options.plist"] in
  Legacy.signxcarchive host "/uploads/app.zip" "/tmp/" initial
  = (Resolved "/tmp/id0/id1.zip",
     mkWorld (stages ++ [ZipInline "/tmp/id0/id1.zip"
                           "/tmp/id0/signed/A/App.ipa"]) 2 [])
  /\ signxcarchive host "/uploads/app.zip" "/tmp/" initial
     = (Resolved "/tmp/id0/signed/id1.zip",
        mkWorld (stages ++ [ZipDelivery "/tmp/id0/signed" "id1.zip" "App.ipa"])
          2 []).
Proof. cbv zeta. split; vm_compute; reflexivity. Qed.

(** C10, amended: the two versions of [signxcarchive] run the same
    extraction, search, exports and result parsing.  Either these stages
    fail, and both versions catch the error, log its message (one with
    [logger.error], the other with [console.log]) and reject without a
    reason, in the same world; or they leave the same directory and items,
    and then the versions differ in the packaging: the older one zips the
    items as collected, joined by commas, into an archive in the extraction
    directory and resolves to that path, the newer one zips the base names
    of the items, joined by spaces, from the [signed] directory and resolves
    to the path of the archive in that directory. *)
Theorem C10_versions_agree_up_to_packaging host archiveFilePath workspace w :
  let old := Legacy.signxcarchive host archiveFilePath workspace w in
  let new := signxcarchive host archiveFilePath workspace w in
  (exists err w3,
      exportStages host archiveFilePath workspace w = (Rejected (Some err), w3)
      /\ old = (Rejected None, afterLog LoggerError (message err) w3)
      /\ new = (Rejected None, afterLog ConsoleLog (message err) w3))
  \/ (exists apath items w3,
        let fileName := generate host (issued w3) ++ ".zip" in
        let signed := Path.join [apath; "signed"] in
        exportStages host archiveFilePath workspace w
          = (Resolved (apath, items), w3)
        /\ trace (snd old)
           = (trace w3 ++ [ZipInline (Path.join [apath; fileName])
                             (Js.join "," items)])%list
        /\ trace (snd new)
           = (trace w3 ++ [ZipDelivery signed fileName
                             (Js.join " " (map Path.basename items))])%list
        /\ (forall delivery w', old = (Resolved delivery, w') ->
              delivery = Path.join [apath; fileName])
        /\ (forall delivery w', new = (Resolved delivery, w') ->
              delivery = Path.join [signed; fileName])).
Proof.
  intros old new.
  pose proof (legacy_signxcarchive_after_stages host archiveFilePath workspace w)
    as Hold.
  pose proof (signxcarchive_after_stages host archiveFilePath workspace w)
    as Hnew.
  cbv zeta in Hold. fold old in Hold. fold new in Hnew.
  destruct (exportStages host archiveFilePath workspace w)
    as [[[apath items]|e] w3].
  - right. exists apath, items, w3. cbv zeta.
    destruct Hold as (Ht & Hres).
    split; [reflexivity|]. split; [exact Ht|].
    destruct (packageForDelivery host (Path.join [apath; "signed"]) items w3)
      as [o w'] eqn:Hp.
    destruct (packageForDelivery_trace _ _ _ _ _ _ Hp) as (Htn & _).
    rewrite Hnew. cbn [snd]. split; [exact Htn|]. split; [exact Hres|].
    intros delivery w'' Heq. inversion Heq; subst.
    now destruct (packageForDelivery_resolved _ _ _ _ _ _ Hp) as (Hd & _).
  - left. destruct Hold as (err & -> & Hold), Hnew as (err' & Heq & Hnew).
    inversion Heq; subst err'. now exists err, w3.
Qed.

(* ------------------------------------------------------------------ *)
(** ** Further properties: code units in strings *)

Lemma split_single_iff sep s : Js.split sep s = [s] <-> hasChar sep s = false.
Proof.
  induction s as [|c r IH]; simpl.
  - split; reflexivity.
  - destruct (Ascii.eqb c sep) eqn:Hc; simpl.
    + split; intros H; [|discriminate].
      inversion H.
    + destruct (Js.split sep r) as [|x xs] eqn:Hr.
      * destruct (split_not_nil sep r Hr).
      * rewrite <- IH. split; intros H.
        -- inversion H; subst. reflexivity.
        -- inversion H; subst. reflexivity.
Qed.

(** A piece cut by [split] holds no separator. *)
Lemma split_piece_clean sep s x : In x (Js.split sep s) -> hasChar sep x = false.
Proof. intros H. apply split_single_iff. exact (split_piece sep s x H). Qed.

Lemma nth0_in {A} (l : list A) d : l <> [] -> In (nth 0 l d) l.
Proof. destruct l; [congruence | now left]. Qed.

Lemma first_piece_clean sep s : hasChar sep (nth 0 (Js.split sep s) "") = false.
Proof.
  apply (split_piece_clean sep s). apply nth0_in. apply split_not_nil.
Qed.

Lemma last_piece_clean sep s : hasChar sep (Js.pop (Js.split sep s)) = false.
Proof.
  apply (split_piece_clean sep s). apply last_in. apply split_not_nil.
Qed.

Lemma hasChar_trimStart c s : hasChar c s = false -> hasChar c (Js.trimStart s) = false.
Proof.
  induction s as [|a r IH]; simpl; [reflexivity|]. intros H.
  apply orb_false_iff in H. destruct H as [Ha Hr].
  destruct (Js.isWhiteSpace a); [now apply IH|]. simpl. now rewrite Ha, Hr.
Qed.

Lemma hasChar_trimEnd c s : hasChar c s = false -> hasChar c (Js.trimEnd s) = false.
Proof.
  induction s as [|a r IH]; simpl; [reflexivity|]. intros H.
  apply orb_false_iff in H. destruct H as [Ha Hr]. specialize (IH Hr).
  destruct (Js.trimEnd r) as [|b r'].
  - destruct (Js.isWhiteSpace a); simpl; [reflexivity | now rewrite Ha].
  - change (hasChar c (String a (String b r')) = false).
    cbn [hasChar] in *. now rewrite Ha.
Qed.

Lemma hasChar_trim c s : hasChar c s = false -> hasChar c (Js.trim s) = false.
Proof. intros H. apply hasChar_trimStart, hasChar_trimEnd, H. Qed.

(** [includes] of a one-unit string is the occurrence of that unit. *)
Lemma includes_char c s : Js.includes s (String c EmptyString) = hasChar c s.
Proof.
  induction s as [|a r IH]; [reflexivity|].
  cbn [Js.includes hasChar prefix].
  destruct (ascii_dec c a) as [->|Hne].
  - rewrite Ascii.eqb_refl. now destruct r.
  - rewrite IH. assert (Ascii.eqb a c = false) as ->; [|reflexivity].
    apply Ascii.eqb_neq. congruence.
Qed.

(* ------------------------------------------------------------------ *)
(** ** Further properties: [trim] *)

Lemma trimStart_idempotent s : Js.trimStart (Js.trimStart s) = Js.trimStart s.
Proof.
  induction s as [|c r IH]; [reflexivity|]. simpl.
  destruct (Js.isWhiteSpace c) eqn:Hc; [exact IH|]. simpl. now rewrite Hc.
Qed.

Lemma trimEnd_idempotent s : Js.trimEnd (Js.trimEnd s) = Js.trimEnd s.
Proof.
  induction s as [|c r IH]; [reflexivity|]. simpl.
  destruct (Js.trimEnd r) as [|d r'] eqn:Hr.
  - destruct (Js.isWhiteSpace c) eqn:Hc; [reflexivity|]. simpl. now rewrite Hc.
  - change (Js.trimEnd (String c (String d r')) = String c (String d r')).
    cbn [Js.trimEnd]. cbn [Js.trimEnd] in IH.
    destruct (Js.trimEnd r') as [|e r'']; destruct (Js.isWhiteSpace d);
      try discriminate; inversion IH; subst; reflexivity.
Qed.

Lemma trimEnd_trimStart s : Js.trimEnd (Js.trimStart s) = Js.trimStart (Js.trimEnd s).
Proof.
  induction s as [|c r IH]; [reflexivity|]. simpl.
  destruct (Js.isWhiteSpace c) eqn:Hc.
  - rewrite IH. destruct (Js.trimEnd r) as [|d r']; [reflexivity|].
    simpl. now rewrite Hc.
  - cbn [Js.trimEnd]. destruct (Js.trimEnd r) as [|d r']; simpl; now rewrite Hc.
Qed.

(** What [trim] returns has no white space left at either end. *)
Lemma trim_idempotent s : Js.trim (Js.trim s) = Js.trim s.
Proof.
  unfold Js.trim. rewrite trimEnd_trimStart, trimEnd_idempotent.
  apply trimStart_idempotent.
Qed.

(* ------------------------------------------------------------------ *)
(** ** Further properties: [fetchKeychainValue] *)

Lemma getOwn_setOwn_same obj name value :
  name <> "__proto__" -> Keychain.getOwn (Keychain.setOwn obj name value) name = Some value.
Proof.
  intros H. unfold Keychain.setOwn. apply String.eqb_neq in H. rewrite H.
  simpl. now rewrite String.eqb_refl.
Qed.

Lemma getOwn_filter_other obj key name :
  key <> name ->
  Keychain.getOwn (filter (fun kv => negb (fst kv =? key)) obj) name
  = Keychain.getOwn obj name.
Proof.
  intros H. induction obj as [|[k v] rest IH]; [reflexivity|]. simpl.
  destruct (k =? key) eqn:Hk; simpl.
  - apply String.eqb_eq in Hk. subst k.
    apply String.eqb_neq in H. now rewrite H.
  - now rewrite IH.
Qed.

Lemma getOwn_setOwn_other obj key value name :
  key <> name ->
  Keychain.getOwn (Keychain.setOwn obj key value) name = Keychain.getOwn obj name.
Proof.
  intros H. unfold Keychain.setOwn. destruct (key =? "__proto__"); [reflexivity|].
  simpl. pose proof H as H'. apply String.eqb_neq in H'. rewrite H'.
  now apply getOwn_filter_other.
Qed.

(** An assignment never makes [__proto__] an own property. *)
Lemma getOwn_setOwn_proto obj key value :
  Keychain.getOwn (Keychain.setOwn obj key value) "__proto__"
  = Keychain.getOwn obj "__proto__".
Proof.
  destruct (String.eqb_spec key "__proto__") as [->|Hne].
  - reflexivity.
  - now apply getOwn_setOwn_other.
Qed.

(** One turn of the loop: the query is run, and its secret is stored when
    the query succeeds. *)
Lemma callback_runs host account name w :
  Keychain.callback host account name w
  = match Keychain.spawn host (Keychain.trace w)
            (Keychain.FindGenericPassword name account) with
    | inl e =>
        (Rejected (Some e),
         Keychain.mkWorld
           (Keychain.trace w ++ [Keychain.FindGenericPassword name account])
           (Keychain.keyPairs w))
    | inr r =>
        (Resolved tt,
         Keychain.mkWorld
           (Keychain.trace w ++ [Keychain.FindGenericPassword name account])
           (Keychain.setOwn (Keychain.keyPairs w) name (Keychain.secretOf r)))
    end.
Proof.
  unfold Keychain.callback, Keychain.bind, Keychain.exec.
  now destruct (Keychain.spawn host _ _).
Qed.

Lemma asyncForEach_app pre post callback w w1 :
  Keychain.asyncForEach pre callback w = (Resolved tt, w1) ->
  Keychain.asyncForEach (pre ++ post) callback w
  = Keychain.asyncForEach post callback w1.
Proof.
  revert w. induction pre as [|name pre IH]; intros w; simpl.
  - unfold Keychain.ret. intros H. now inversion H.
  - unfold Keychain.bind.
    destruct (callback name w) as [[[]|e] w0]; [apply IH | discriminate].
Qed.

(** The object a keychain that answers every query leaves after the loop. *)
Lemma asyncForEach_answering answer account names : forall w,
  Keychain.asyncForEach names
    (Keychain.callback (Keychain.answering answer) account) w
  = (Resolved tt,
     Keychain.mkWorld
       (Keychain.trace w
        ++ map (fun name => Keychain.FindGenericPassword name account) names)
       (fold_left
          (fun obj name =>
             Keychain.setOwn obj name (Keychain.secretOf (answer name account)))
          names (Keychain.keyPairs w))).
Proof.
  induction names as [|name rest IH]; intros w; simpl.
  - unfold Keychain.ret. rewrite app_nil_r. now destruct w.
  - unfold Keychain.bind. rewrite callback_runs. simpl.
    rewrite IH. simpl. now rewrite <- app_assoc.
Qed.

Lemma getOwn_stored secret names : forall obj name,
  Keychain.getOwn
    (fold_left (fun o n => Keychain.setOwn o n (secret n)) names obj) name
  = if in_dec string_dec name names then
      if name =? "__proto__" then Keychain.getOwn obj name else Some (secret name)
    else Keychain.getOwn obj name.
Proof.
  induction names as [|n rest IH]; intros obj name; [reflexivity|].
  cbn [fold_left]. rewrite IH.
  destruct (in_dec string_dec name rest) as [Hin|Hnin].
  - destruct (in_dec string_dec name (n :: rest)) as [_|Hn]; [|elim Hn; now right].
    destruct (String.eqb_spec name "__proto__") as [->|_]; [|reflexivity].
    apply getOwn_setOwn_proto.
  - destruct (in_dec string_dec name (n :: rest)) as [[->|Hin]|Hn].
    + destruct (String.eqb_spec name "__proto__") as [->|Hne].
      * apply getOwn_setOwn_proto.
      * now apply getOwn_setOwn_same.
    + contradiction.
    + apply getOwn_setOwn_other. intros ->. apply Hn. now left.
Qed.

(** X1: on a keychain that answers every query, [fetchKeychainValue]
    resolves; it has run one query per requested name, in order; the object
    it returns holds, for every requested name other than [__proto__], the
    first line of the trimmed output of the query for that name; and it has
    no other own property. *)
Theorem keychain_values_of_requested_names answer keyNames keyAccount w :
  let run :=
    Keychain.fetchKeychainValue (Keychain.answering answer) keyNames keyAccount w in
  exists obj,
    fst run = Resolved obj
    /\ Keychain.trace (snd run)
       = (Keychain.trace w
          ++ map (fun name => Keychain.FindGenericPassword name keyAccount)
               keyNames)%list
    /\ (forall name, In name keyNames -> name <> "__proto__" ->
          Keychain.getOwn obj name
          = Some (Keychain.secretOf (answer name keyAccount)))
    /\ (forall name, ~ In name keyNames -> Keychain.getOwn obj name = None)
    /\ Keychain.getOwn obj "__proto__" = None.
Proof.
  intros run. unfold run, Keychain.fetchKeychainValue, Keychain.bind,
    Keychain.tryCatch.
  rewrite asyncForEach_answering. cbn [fst snd Keychain.trace Keychain.keyPairs].
  eexists. split; [reflexivity|]. split; [reflexivity|].
  repeat split.
  - intros name Hin Hne.
    rewrite (getOwn_stored (fun n => Keychain.secretOf (answer n keyAccount))).
    destruct (in_dec string_dec name keyNames); [|contradiction].
    apply String.eqb_neq in Hne. now rewrite Hne.
  - intros name Hnin.
    rewrite (getOwn_stored (fun n => Keychain.secretOf (answer n keyAccount))).
    now destruct (in_dec string_dec name keyNames).
  - rewrite (getOwn_stored (fun n => Keychain.secretOf (answer n keyAccount))).
    now destruct (in_dec string_dec "__proto__" keyNames).
Qed.

(** X2: when the query for one name fails after the queries for the names
    before it succeeded, [fetchKeychainValue] is rejected with a new error
    whose message is 'Unable to find the keychain! ' followed by the text of
    the error of that query; the names after it are not queried, and the
    values read so far are not returned. *)
Theorem keychain_first_failure_is_wrapped host pre name post keyAccount w w1 err :
  Keychain.asyncForEach pre (Keychain.callback host keyAccount)
    (Keychain.mkWorld (Keychain.trace w) []) = (Resolved tt, w1) ->
  Keychain.spawn host (Keychain.trace w1)
    (Keychain.FindGenericPassword name keyAccount) = inl err ->
  Keychain.fetchKeychainValue host (pre ++ name :: post) keyAccount w
  = (Rejected
       (Some (Error ("Unable to find the keychain! "
                     ++ Keychain.errorToString (Some err)))),
     Keychain.mkWorld
       (Keychain.trace w1 ++ [Keychain.FindGenericPassword name keyAccount])
       (Keychain.keyPairs w1)).
Proof.
  intros Hpre Herr.
  unfold Keychain.fetchKeychainValue, Keychain.bind, Keychain.tryCatch.
  rewrite (asyncForEach_app pre (name :: post) _ _ _ Hpre).
  cbn [Keychain.asyncForEach]. unfold Keychain.bind.
  rewrite callback_runs, Herr. reflexivity.
Qed.

Lemma keychain_first_failure_is_wrapped_witness :
  Keychain.fetchKeychainValue
    (Keychain.lacking "apple-id" (fun name _ => mkExecResult ("s3cret" ++ nl) ""))
    ["team-id"; "apple-id"; "password"] "ci" (Keychain.mkWorld [] [])
  = (Rejected
       (Some (Error "Unable to find the keychain! Error: Command failed: security find-generic-password")),
     Keychain.mkWorld
       [Keychain.FindGenericPassword "team-id" "ci";
        Keychain.FindGenericPassword "apple-id" "ci"]
       [("team-id", "s3cret")]).
Proof.
  exact (keychain_first_failure_is_wrapped
           (Keychain.lacking "apple-id"
              (fun name _ => mkExecResult ("s3cret" ++ nl) ""))
           ["team-id"] "apple-id" ["password"] "ci" (Keychain.mkWorld [] [])
           _ _ eq_refl eq_refl).
Defined.

Lemma getOwn_setOwn_inv obj key value name found :
  Keychain.getOwn (Keychain.setOwn obj key value) name = Some found ->
  (name = key /\ key <> "__proto__" /\ found = value)
  \/ Keychain.getOwn obj name = Some found.
Proof.
  intros H. destruct (String.eqb_spec key "__proto__") as [->|Hproto].
  - now right.
  - destruct (string_dec key name) as [->|Hne].
    + rewrite getOwn_setOwn_same in H by assumption. inversion H. now left.
    + rewrite getOwn_setOwn_other in H by assumption. now right.
Qed.

(** X3: on any keychain, every own property of the object
    [fetchKeychainValue] resolves to is one of the requested names, is not
    [__proto__], and its value holds no line break. *)
Theorem keychain_result_shape host keyNames keyAccount w obj w' :
  Keychain.fetchKeychainValue host keyNames keyAccount w = (Resolved obj, w') ->
  forall name value,
    Keychain.getOwn obj name = Some value ->
    In name keyNames /\ name <> "__proto__" /\ hasChar Js.LF value = false.
Proof.
  unfold Keychain.fetchKeychainValue, Keychain.bind, Keychain.tryCatch.
  set (start := Keychain.mkWorld (Keychain.trace w) []).
  assert (Hloop : forall names w0 w1,
             (forall n, In n names -> In n keyNames) ->
             (forall name value,
                 Keychain.getOwn (Keychain.keyPairs w0) name = Some value ->
                 In name keyNames /\ name <> "__proto__"
                 /\ hasChar Js.LF value = false) ->
             Keychain.asyncForEach names (Keychain.callback host keyAccount) w0
             = (Resolved tt, w1) ->
             forall name value,
               Keychain.getOwn (Keychain.keyPairs w1) name = Some value ->
               In name keyNames /\ name <> "__proto__"
               /\ hasChar Js.LF value = false).
  { induction names as [|n rest IH]; intros w0 w1 Hsub Hinv; simpl.
    - unfold Keychain.ret. intros H. inversion H; subst. exact Hinv.
    - unfold Keychain.bind. rewrite callback_runs.
      destruct (Keychain.spawn host _ _) as [e|r]; [discriminate|].
      apply IH.
      + intros m Hm. apply Hsub. now right.
      + cbn [Keychain.keyPairs]. intros name value Hget.
        apply getOwn_setOwn_inv in Hget.
        destruct Hget as [(-> & Hproto & ->)|Hget]; [|now apply Hinv].
        split; [apply Hsub; now left|]. split; [exact Hproto|].
        apply first_piece_clean. }
  destruct (Keychain.asyncForEach keyNames _ start) as [[[]|e] w1] eqn:Hrun;
    [|discriminate].
  intros H. inversion H; subst.
  apply (Hloop keyNames start w'); auto. intros name value Hget. discriminate Hget.
Qed.

Lemma keychain_result_shape_witness :
  In "team-id" ["team-id"; "password"]
  /\ "team-id" <> "__proto__"
  /\ hasChar Js.LF "ABCDE12345" = false.
Proof.
  exact (keychain_result_shape
           (Keychain.answering
              (fun name _ =>
                 mkExecResult ("ABCDE12345" ++ nl ++ "second line" ++ nl) ""))
           ["team-id"; "password"] "ci" (Keychain.mkWorld [] [])
           _ _ eq_refl "team-id" "ABCDE12345" eq_refl).
Defined.

(* ------------------------------------------------------------------ *)
(** ** Further properties: the identity listing and the resolution *)

Lemma string_app_assoc (a b c : string) : ((a ++ b) ++ c)%string = (a ++ b ++ c)%string.
Proof. induction a as [|x a IH]; simpl; [reflexivity | now rewrite IH]. Qed.

Lemma split_line sep line rest :
  hasChar sep line = false ->
  Js.split sep (line ++ String sep rest) = line :: Js.split sep rest.
Proof.
  induction line as [|c r IH]; simpl; intros H.
  - now rewrite Ascii.eqb_refl.
  - apply orb_false_iff in H. destruct H as [Hc Hr].
    rewrite Hc, (IH Hr). reflexivity.
Qed.

Lemma split_listing lines summary :
  (forall line, In line lines -> hasChar Js.LF line = false) ->
  hasChar Js.LF summary = false ->
  Js.split Js.LF (listing lines summary) = (lines ++ [summary; ""])%list.
Proof.
  unfold listing. intros Hlines Hsum.
  induction lines as [|line rest IH].
  - cbn [map String.concat]. change ("" ++ summary ++ nl) with (summary ++ nl).
    unfold nl. now rewrite (split_line Js.LF summary "" Hsum).
  - assert (Hrest : forall l, In l rest -> hasChar Js.LF l = false)
      by (intros l Hl; apply Hlines; now right).
    specialize (IH Hrest).
    replace (String.concat "" (map (fun l => l ++ nl) (line :: rest))
             ++ summary ++ nl)
      with (line ++ String Js.LF
              (String.concat "" (map (fun l => l ++ nl) rest) ++ summary ++ nl)).
    + rewrite (split_line Js.LF line _ (Hlines line (or_introl eq_refl))).
      now rewrite IH.
    + cbn [map]. destruct rest as [|l2 rest'].
      * cbn [map String.concat]. unfold nl.
        now rewrite !string_app_assoc.
      * cbn [String.concat map]. unfold nl.
        now rewrite !string_app_assoc.
Qed.

(** X4: when the identity listing prints one line per identity followed by
    the line that counts them, each ended by a line break,
    [currentValidSigningIdentities] returns one entry per identity line, in
    order: the line trimmed and without its first three code units.  The
    counting line is dropped whatever it says. *)
Theorem listing_is_parsed_line_by_line host w r w' lines summary :
  exec host FindIdentity w = (Resolved r, w') ->
  stdout r = listing lines summary ->
  (forall line, In line lines -> hasChar Js.LF line = false) ->
  hasChar Js.LF summary = false ->
  currentValidSigningIdentities host w = (Resolved (map entryOf lines), w').
Proof.
  intros He Hout Hlines Hsum. unfold currentValidSigningIdentities.
  rewrite (bind_resolved _ He), Hout, (split_listing lines summary Hlines Hsum).
  unfold Js.sliceEnd. rewrite length_app. cbn [List.length].
  replace (List.length lines + 2 - 2) with (List.length lines + 0) by lia.
  rewrite firstn_app_2. cbn [firstn]. now rewrite app_nil_r.
Qed.

Lemma listing_is_parsed_line_by_line_witness :
  currentValidSigningIdentities (scripted (ipaScript "")) initial
  = (Resolved
       ["0A1B2C3D4E5F " ++ Js.quoted "Apple Distribution: Example Org (ABCDE12345)"],
     mkWorld [FindIdentity] 0 []).
Proof.
  refine (listing_is_parsed_line_by_line (scripted (ipaScript "")) initial _ _
            ["  1) 0A1B2C3D4E5F "
             ++ Js.quoted "Apple Distribution: Example Org (ABCDE12345)"]
            "     1 valid identities found" eq_refl eq_refl _ eq_refl).
  intros line [<-|[]]. reflexivity.
Defined.

(** X5: the entry of a listing line keeps what follows the first three code
    units of the trimmed line, so for a line whose index has two digits
    ("10) ...") the entry begins with a space and its identifier is empty:
    when such an entry is the first that includes the value, the resolution
    returns the empty string, which the caller takes for no identity. *)
Theorem two_digit_index_resolves_to_empty host value w pre line d1 d2 rest post w1 :
  currentValidSigningIdentities host w
    = (Resolved (pre ++ entryOf line :: post)%list, w1) ->
  Js.trim line = String d1 (String d2 (") " ++ rest)) ->
  (forall item, In item pre -> Js.includes item value = false) ->
  Js.includes (entryOf line) value = true ->
  uniqueSigningIdentifierForValue host value w = (Resolved (Some ""), w1)
  /\ isFalsy (Some "") = true.
Proof.
  intros Hc Hline Hpre Hin. split; [|reflexivity].
  rewrite (resolution_first_match host value w pre (entryOf line) post w1 Hc Hpre Hin).
  unfold entryOf. rewrite Hline. cbn [Js.substr String.append].
  unfold identifierOf. cbn [String.eqb]. cbn [Js.split].
  change (Ascii.eqb " " Js.SPACE) with true. cbn iota. reflexivity.
Qed.

Lemma two_digit_index_resolves_to_empty_witness :
  let line := " 10) 0A1B2C3D4E5F " ++ Js.quoted "Apple Distribution: Example Org" in
  let host :=
    scripted (mkScript (fun _ => "") (fun _ _ => "")
                (listing [line] "    10 valid identities found") "" "") in
  uniqueSigningIdentifierForValue host "Example Org" initial
  = (Resolved (Some ""), mkWorld [FindIdentity] 0 []).
Proof.
  intros line host.
  refine (proj1 (two_digit_index_resolves_to_empty host "Example Org" initial
                   [] line "1" "0"
                   ("0A1B2C3D4E5F " ++ Js.quoted "Apple Distribution: Example Org")
                   [] _ eq_refl eq_refl _ eq_refl)).
  intros item [].
Defined.

Lemma includes_in_empty value : Js.includes "" value = true -> value = "".
Proof. destruct value; [reflexivity | discriminate]. Qed.

(** X6: for a value that is not empty, [uniqueSigningIdentifierForValue]
    never returns [undefined]: it is rejected or it returns a string.  The
    test [matches.length === 0] can only pass for the empty value. *)
Theorem resolution_never_undefined host value w :
  value <> "" ->
  fst (uniqueSigningIdentifierForValue host value w) <> Resolved None.
Proof.
  intros Hne. unfold uniqueSigningIdentifierForValue, bind.
  destruct (currentValidSigningIdentities host w) as [[cids|e] w1];
    [|discriminate].
  destruct (find (fun item => Js.includes item value) cids) as [matches|] eqn:Hf;
    [|discriminate].
  apply find_some in Hf. destruct Hf as [_ Hin].
  rewrite length_zero_eqb. destruct (String.eqb_spec matches "") as [->|_].
  - elim Hne. now apply includes_in_empty.
  - discriminate.
Qed.

Lemma resolution_never_undefined_witness :
  fst (uniqueSigningIdentifierForValue
         (scripted (ipaScript "")) "Example Org" initial)
  <> Resolved None
  /\ fst (uniqueSigningIdentifierForValue
            (scripted (ipaScript "")) "Example Org" initial)
     = Resolved (Some "0A1B2C3D4E5F").
Proof.
  split; [|reflexivity].
  apply (resolution_never_undefined (scripted (ipaScript "")) "Example Org" initial).
  discriminate.
Defined.

(** X7: an identifier returned by [uniqueSigningIdentifierForValue] is the
    identifier of an entry of the listing that includes the value; it holds
    no space, and no white space at either end. *)
Theorem resolved_identifier_is_clean host value w identifier w' :
  uniqueSigningIdentifierForValue host value w
    = (Resolved (Some identifier), w') ->
  Js.includes identifier " " = false
  /\ Js.trim identifier = identifier
  /\ exists cids entry,
       currentValidSigningIdentities host w = (Resolved cids, w')
       /\ In entry cids /\ Js.includes entry value = true
       /\ identifier = identifierOf entry.
Proof.
  unfold uniqueSigningIdentifierForValue, bind.
  destruct (currentValidSigningIdentities host w) as [[cids|e] w1];
    [|discriminate].
  destruct (find (fun item => Js.includes item value) cids) as [matches|] eqn:Hf;
    [|discriminate].
  apply find_some in Hf. destruct Hf as [Hin Hinc].
  destruct (String.length matches =? 0)%nat; [discriminate|].
  unfold ret. intros H. inversion H; subst. fold (identifierOf matches).
  split; [|split].
  - change " " with (String Js.SPACE ""). rewrite includes_char.
    apply hasChar_trim, first_piece_clean.
  - apply trim_idempotent.
  - now exists cids, matches.
Qed.

Lemma resolved_identifier_is_clean_witness :
  Js.includes "0A1B2C3D4E5F" " " = false
  /\ Js.trim "0A1B2C3D4E5F" = "0A1B2C3D4E5F".
Proof.
  pose proof (resolved_identifier_is_clean (scripted (ipaScript ""))
                "Example Org" initial "0A1B2C3D4E5F" _ eq_refl) as (H1 & H2 & _).
  exact (conj H1 H2).
Defined.

(** X8: the authority string [extractCurrentSigningIdentifier] returns has
    no white space at either end, and obtaining it costs an inspection of the
    bundle followed by one listing of the identities. *)
Theorem extracted_authority_is_trimmed host apath w authority w' :
  extractCurrentSigningIdentifier host apath w = (Resolved authority, w') ->
  Js.trim authority = authority
  /\ trace w' = (trace w ++ [ShowAuthority apath; FindIdentity])%list.
Proof.
  unfold extractCurrentSigningIdentifier, currentValidSigningIdentities, bind.
  destruct (exec host (ShowAuthority apath) w) as [[r|e] w1] eqn:H1;
    [|discriminate].
  destruct (exec host FindIdentity w1) as [[r2|e] w2] eqn:H2; [|discriminate].
  unfold ret. intros H. inversion H; subst.
  split; [apply trim_idempotent|].
  apply exec_trace in H1, H2. destruct H1 as (T1 & _), H2 as (T2 & _).
  rewrite T2, T1, <- app_assoc. reflexivity.
Qed.

Lemma extracted_authority_is_trimmed_witness :
  Js.trim "Apple Distribution: Example Org (ABCDE12345)"
  = "Apple Distribution: Example Org (ABCDE12345)"
  /\ [ShowAuthority "/tmp/id0/signed/0"; FindIdentity]
     = ([] ++ [ShowAuthority "/tmp/id0/signed/0"; FindIdentity])%list.
Proof.
  exact (extracted_authority_is_trimmed
           (scripted (ipaScript "  Apple Distribution: Example Org (ABCDE12345) "))
           "/tmp/id0/signed/0" initial
           "Apple Distribution: Example Org (ABCDE12345)" _ eq_refl).
Defined.

(* ------------------------------------------------------------------ *)
(** ** Further properties: the export fan-out and its reports *)

Lemma collectExported_resolved response : forall items w out w',
  collectExported response items w = (Resolved out, w') ->
  w' = w
  /\ out = (items ++ map artifact (filter succeeded response))%list
  /\ forall r, In r response -> succeeded r = true ->
               List.length (components r) = 4.
Proof.
  induction response as [|value rest IH]; intros items w out w'; simpl.
  - unfold ret. intros H. inversion H; subst.
    rewrite app_nil_r. repeat split. intros r [].
  - fold (succeeded value). fold (components value).
    destruct (succeeded value) eqn:Hs.
    + destruct (List.length (components value) =? 4)%nat eqn:Hc; simpl;
        [|discriminate].
      fold (artifact value). intros H. apply IH in H.
      destruct H as (-> & -> & Hrest). split; [reflexivity|].
      split; [now rewrite <- app_assoc|].
      intros r [<-|Hr] Hr'; [now apply Nat.eqb_eq | now apply Hrest].
    + intros H. apply IH in H. destruct H as (-> & -> & Hrest).
      repeat split. intros r [<-|Hr] Hr'; [congruence | now apply Hrest].
Qed.

(** X9: reading the reports runs no command and writes no line; it keeps at
    most one item per export, in the order of the exports; and no collected
    item holds a space, since it is the last of the space-separated
    components of a line. *)
Theorem collected_items_are_single_components response w items w' :
  collectExported response [] w = (Resolved items, w') ->
  w' = w
  /\ List.length items <= List.length response
  /\ items = map artifact (filter succeeded response)
  /\ forall item, In item items -> Js.includes item " " = false.
Proof.
  intros H. apply collectExported_resolved in H. destruct H as (-> & Hout & _).
  cbn [app] in Hout. subst items. split; [reflexivity|].
  split; [|split; [reflexivity|]].
  - rewrite length_map. apply filter_length_le.
  - intros item Hin. apply in_map_iff in Hin. destruct Hin as (r & <- & _).
    change " " with (String Js.SPACE ""). rewrite includes_char.
    apply last_piece_clean.
Qed.

Lemma collected_items_are_single_components_witness :
  let reports :=
    [mkExecResult (exported "/tmp/id0/signed/A/App.ipa") "";
     mkExecResult notExported ""] in
  collectExported reports [] initial
  = (Resolved ["/tmp/id0/signed/A/App.ipa"], initial)
  /\ Js.includes "/tmp/id0/signed/A/App.ipa" " " = false.
Proof.
  intros reports. split; [reflexivity|].
  destruct (collected_items_are_single_components reports initial
              ["/tmp/id0/signed/A/App.ipa"] initial eq_refl) as (_ & _ & _ & H).
  apply H. now left.
Defined.

Lemma promiseAll_exec_trace host commands : forall w o w',
  promiseAll (map (exec host) commands) w = (o, w') ->
  trace w' = (trace w ++ commands)%list
  /\ issued w' = issued w /\ logged w' = logged w
  /\ forall results, o = Resolved results ->
                     List.length results = List.length commands.
Proof.
  induction commands as [|c rest IH]; intros w o w'; simpl.
  - intros H. inversion H; subst. rewrite app_nil_r. repeat split.
    intros results Hr. now inversion Hr.
  - destruct (exec host c w) as [o1 w1] eqn:Hc.
    destruct (promiseAll (map (exec host) rest) w1) as [o2 w2] eqn:Hrest.
    apply exec_trace in Hc. destruct Hc as (T1 & I1 & L1).
    apply IH in Hrest. destruct Hrest as (T2 & I2 & L2 & Hlen).
    intros H. inversion H; subst.
    rewrite T2, T1, <- app_assoc. split; [reflexivity|].
    split; [congruence|]. split; [congruence|].
    intros results Hr. destruct o1 as [a|e]; [|discriminate].
    destruct o2 as [l|e]; [|discriminate].
    inversion Hr; subst. simpl. f_equal. now apply Hlen.
Qed.

(** X10: the fan-out of [signxcarchive] starts one export per line of the
    trimmed output of the search, in the order of the lines, also when one
    of the exports is rejected; when all resolve there is one report per
    line. *)
Theorem every_located_bundle_is_exported host apath findResult w :
  let elements := Js.split Js.LF (Js.trim (stdout findResult)) in
  let run := promiseAll (exportsOf host apath findResult) w in
  trace (snd run)
  = (trace w ++ map (exportCommand apath "signed") elements)%list
  /\ logged (snd run) = logged w
  /\ forall reports, fst run = Resolved reports ->
                     List.length reports = List.length elements.
Proof.
  intros elements run.
  assert (Hmap : exportsOf host apath findResult
                 = map (exec host) (map (exportCommand apath "signed") elements)).
  { unfold exportsOf, elements. now rewrite map_map. }
  destruct run as [o w'] eqn:Hrun. unfold run in Hrun. rewrite Hmap in Hrun.
  apply promiseAll_exec_trace in Hrun. destruct Hrun as (T & _ & L & Hlen).
  cbn [fst snd]. split; [exact T|]. split; [exact L|].
  intros reports ->. rewrite (Hlen reports eq_refl). apply length_map.
Qed.

(* ------------------------------------------------------------------ *)
(** ** Further properties: what the ipa pipeline runs *)

Lemma adds_ret {A} allowed (a : A) : adds allowed (ret a).
Proof.
  intros w o w' H. inversion H; subst. exists []. now rewrite app_nil_r.
Qed.

Lemma adds_throw {A} allowed e : adds allowed (@throw A e).
Proof.
  intros w o w' H. inversion H; subst. exists []. now rewrite app_nil_r.
Qed.

Lemma adds_bind {A B} allowed (m : Async A) (k : A -> Async B) :
  adds allowed m -> (forall a, adds allowed (k a)) -> adds allowed (bind m k).
Proof.
  intros Hm Hk w o w' H. unfold bind in H.
  destruct (m w) as [[a|e] w1] eqn:Hmw.
  - destruct (Hm _ _ _ Hmw) as (a1 & T1 & F1 & L1).
    destruct (Hk a _ _ _ H) as (a2 & T2 & F2 & L2).
    exists (a1 ++ a2)%list. rewrite T2, T1, <- app_assoc, forallb_app, F1, F2.
    repeat split. congruence.
  - inversion H; subst. exact (Hm _ _ _ Hmw).
Qed.

Lemma adds_exec allowed host c : allowed c = true -> adds allowed (exec host c).
Proof.
  intros Hc w o w' H. apply exec_trace in H. destruct H as (T & _ & L).
  exists [c]. simpl. now rewrite Hc.
Qed.

Lemma adds_shortid allowed host : adds allowed (shortid_generate host).
Proof.
  intros w o w' H. inversion H; subst. exists []. simpl. now rewrite app_nil_r.
Qed.

Lemma includes_cons c r sub :
  Js.includes r sub = true -> Js.includes (String c r) sub = true.
Proof. intros H. cbn [Js.includes]. rewrite H. now destruct (prefix sub _). Qed.

Lemma includes_trimStart s sub :
  Js.includes (Js.trimStart s) sub = true -> Js.includes s sub = true.
Proof.
  induction s as [|c r IH]; [trivial|]. cbn [Js.trimStart].
  destruct (Js.isWhiteSpace c); [|trivial].
  intros H. apply includes_cons. now apply IH.
Qed.

Lemma prefix_append sub : forall s t,
  prefix sub s = true -> prefix sub (s ++ t) = true.
Proof.
  induction sub as [|a sub IH]; intros s t; [now destruct s, t|].
  destruct s as [|b s]; simpl; [discriminate|].
  destruct (ascii_dec a b); [apply IH | discriminate].
Qed.

Lemma includes_append s t sub :
  Js.includes s sub = true -> Js.includes (s ++ t) sub = true.
Proof.
  induction s as [|c r IH].
  - cbn [Js.includes]. destruct (prefix sub "") eqn:Hp; [|discriminate].
    intros _. destruct sub; [apply includes_empty | discriminate].
  - cbn [Js.includes]. destruct (prefix sub (String c r)) eqn:Hp.
    + intros _. change (String c r ++ t)%string with (String c (r ++ t)).
      cbn [Js.includes].
      change (String c (r ++ t)) with (String c r ++ t)%string.
      now rewrite (prefix_append sub (String c r) t Hp).
    + intros H. change (String c r ++ t)%string with (String c (r ++ t)).
      apply includes_cons. now apply IH.
Qed.

Lemma trimEnd_is_prefix s : exists t, s = (Js.trimEnd s ++ t)%string.
Proof.
  induction s as [|c r (t & IH)]; [now exists ""|]. cbn [Js.trimEnd].
  destruct (Js.trimEnd r) as [|d r'].
  - destruct (Js.isWhiteSpace c); [now exists (String c r) | now exists r].
  - exists t. simpl. simpl in IH. now rewrite <- IH.
Qed.

(** What [trim] returns occurs in the string it was cut from. *)
Lemma includes_trim s sub :
  Js.includes (Js.trim s) sub = true -> Js.includes s sub = true.
Proof.
  unfold Js.trim. intros H. apply includes_trimStart in H.
  destruct (trimEnd_is_prefix s) as (t & Ht). rewrite Ht.
  now apply includes_append.
Qed.

Section IpaCommands.

Variable host : Host.
Variable allowed : Cmd -> bool.
Variable archiveFilePath : string.

Hypothesis allows_find : forall dir pattern, allowed (Find dir pattern) = true.
Hypothesis allows_listing : allowed FindIdentity = true.
Hypothesis allows_inspection : forall dir, allowed (ShowAuthority dir) = true.
Hypothesis allows_zip :
  forall dir fileName names, allowed (ZipDelivery dir fileName names) = true.
Hypothesis allows_upload :
  forall dest, allowed (Unzip archiveFilePath dest) = true.
Hypothesis allows_unzip :
  forall archive dest,
    Js.includes archive "__MACOSX" = false -> allowed (Unzip archive dest) = true.
Hypothesis allows_resign :
  forall dir identity outFileName dest,
    identity <> "" -> allowed (Resign dir identity outFileName dest) = true.

Lemma currentValidSigningIdentities_adds :
  adds allowed (currentValidSigningIdentities host).
Proof.
  unfold currentValidSigningIdentities.
  apply adds_bind; [now apply adds_exec | intros r; apply adds_ret].
Qed.

Lemma extractCurrentSigningIdentifier_adds apath :
  adds allowed (extractCurrentSigningIdentifier host apath).
Proof.
  unfold extractCurrentSigningIdentifier.
  apply adds_bind; [now apply adds_exec|]. intros r.
  apply adds_bind; [apply currentValidSigningIdentities_adds|]. intros _.
  apply adds_ret.
Qed.

Lemma uniqueSigningIdentifierForValue_adds value :
  adds allowed (uniqueSigningIdentifierForValue host value).
Proof.
  unfold uniqueSigningIdentifierForValue.
  apply adds_bind; [apply currentValidSigningIdentities_adds|]. intros cids.
  destruct (find _ cids); [|apply adds_throw].
  destruct (_ =? _)%nat; apply adds_ret.
Qed.

Lemma packageForDelivery_adds apath items :
  adds allowed (packageForDelivery host apath items).
Proof.
  unfold packageForDelivery.
  apply adds_bind; [apply adds_shortid|]. intros id.
  apply adds_bind; [now apply adds_exec|]. intros z.
  destruct (_ || _); [apply adds_throw | apply adds_ret].
Qed.

Lemma resignFrom_adds apath outBasePath results :
  (forall value, In value results -> Js.includes value "__MACOSX" = false) ->
  forall index items,
    adds allowed (resignFrom host apath outBasePath results index items).
Proof.
  induction results as [|value rest IH]; intros Hclean index items.
  - apply adds_ret.
  - cbn [resignFrom].
    apply adds_bind.
    { apply adds_exec, allows_unzip.
      destruct (Js.includes (Js.trim value) "__MACOSX") eqn:Ht; [|reflexivity].
      apply includes_trim in Ht.
      now rewrite (Hclean value (or_introl eq_refl)) in Ht. }
    intros _. apply adds_bind; [apply extractCurrentSigningIdentifier_adds|].
    intros certIdentifier.
    apply adds_bind; [apply uniqueSigningIdentifierForValue_adds|].
    intros signingIdentifier.
    destruct (isFalsy signingIdentifier) eqn:Hf; [apply adds_throw|].
    apply adds_bind.
    + apply adds_exec, allows_resign.
      destruct signingIdentifier as [s|]; [|discriminate]. simpl.
      unfold isFalsy, Js.truthy in Hf. rewrite Bool.negb_involutive in Hf.
      now apply String.eqb_neq.
    + intros _. apply IH. intros v Hv. apply Hclean. now right.
Qed.

Lemma signipaarchive_adds workspace :
  adds allowed (signipaarchive host archiveFilePath workspace).
Proof.
  unfold signipaarchive, extractArchiveContents. cbv zeta.
  apply adds_bind.
  { apply adds_bind; [apply adds_shortid|]. intros id.
    apply adds_bind; [now apply adds_exec | intros _; apply adds_ret]. }
  intros apath. apply adds_bind; [now apply adds_exec|]. intros findResult.
  destruct (negb _); [apply adds_throw|].
  apply adds_bind; [|intros items; apply packageForDelivery_adds].
  apply resignFrom_adds. intros value Hv.
  now apply ipa_bundles_exclude_shadow in Hv.
Qed.

End IpaCommands.

Lemma adds_run {A} allowed (m : Async A) w :
  adds allowed m ->
  exists added,
    trace (snd (m w)) = (trace w ++ added)%list
    /\ forallb allowed added = true
    /\ logged (snd (m w)) = logged w.
Proof. intros H. destruct (m w) as [o w'] eqn:Hm. exact (H w o w' Hm). Qed.

(** X11: whatever the host answers and however the run ends,
    [signipaarchive] never runs [codesign] with an empty identity, and never
    writes a line to the log. *)
Theorem ipa_never_signs_without_identity host archiveFilePath workspace w :
  let run := signipaarchive host archiveFilePath workspace w in
  exists added,
    trace (snd run) = (trace w ++ added)%list
    /\ forallb signsWithIdentity added = true
    /\ logged (snd run) = logged w.
Proof.
  apply adds_run, (signipaarchive_adds host signsWithIdentity archiveFilePath);
    try reflexivity.
  intros dir identity outFileName dest H. simpl.
  apply String.eqb_neq in H. now rewrite H.
Qed.

(** X12: whatever the host answers and however the run ends, the only
    archives [signipaarchive] unpacks are the uploaded archive and located
    paths that do not include [__MACOSX]. *)
Theorem ipa_never_unpacks_shadow_entry host archiveFilePath workspace w :
  let run := signipaarchive host archiveFilePath workspace w in
  exists added,
    trace (snd run) = (trace w ++ added)%list
    /\ forallb (unpacksNoShadow archiveFilePath) added = true.
Proof.
  destruct (adds_run (unpacksNoShadow archiveFilePath)
              (signipaarchive host archiveFilePath workspace) w)
    as (added & T & F & _).
  - apply signipaarchive_adds; try reflexivity.
    + intros dest. simpl. now rewrite String.eqb_refl.
    + intros archive dest H. simpl. rewrite H. apply orb_true_r.
  - now exists added.
Qed.

Lemma resignFrom_resolved host apath outBasePath results :
  forall index items w out w',
    resignFrom host apath outBasePath results index items w = (Resolved out, w') ->
    out = (items ++ map (fun value => Path.basename (Js.trim value)) results)%list.
Proof.
  induction results as [|value rest IH]; intros index items w out w' H.
  - inversion H; subst. now rewrite app_nil_r.
  - cbn [resignFrom] in H.
    apply bind_inv in H. destruct H as [(e & _ & He)|(u & w1 & _ & H)];
      [discriminate|].
    apply bind_inv in H. destruct H as [(e & _ & He)|(cert & w2 & _ & H)];
      [discriminate|].
    apply bind_inv in H. destruct H as [(e & _ & He)|(sid & w3 & _ & H)];
      [discriminate|].
    destruct (isFalsy sid); [discriminate|].
    apply bind_inv in H. destruct H as [(e & _ & He)|(r & w4 & _ & H)];
      [discriminate|].
    apply IH in H. subst out. cbn [map]. now rewrite <- app_assoc.
Qed.

(** X13: when [signipaarchive] resolves, the last command it ran zipped,
    in the extraction directory, exactly one name per located bundle, in the
    order of the search output: the base name of the trimmed path of each
    line that is neither empty nor a [__MACOSX] entry; and it resolves to the
    path of that archive in the extraction directory. *)
Theorem ipa_delivery_names_every_bundle host archiveFilePath workspace w
    delivery w' :
  signipaarchive host archiveFilePath workspace w = (Resolved delivery, w') ->
  exists apath w1 findResult w2 w3,
    extractArchiveContents host archiveFilePath workspace w = (Resolved apath, w1)
    /\ exec host (Find apath "*.ipa") w1 = (Resolved findResult, w2)
    /\ let names :=
         map (fun value => Path.basename (Js.trim value))
           (filter isBundle (Js.split Js.LF (stdout findResult))) in
       let fileName := generate host (issued w3) ++ ".zip" in
       trace w' = (trace w3 ++ [ZipDelivery apath fileName (Js.join " " names)])%list
       /\ delivery = Path.join [apath; fileName].
Proof.
  unfold signipaarchive. cbv zeta. intros H.
  apply bind_inv in H. destruct H as [(e & _ & He)|(apath & w1 & Hx & H)];
    [discriminate|].
  apply bind_inv in H. destruct H as [(e & _ & He)|(fr & w2 & Hf & H)];
    [discriminate|].
  destruct (negb _); [discriminate|].
  apply bind_inv in H. destruct H as [(e & _ & He)|(items & w3 & Hl & H)];
    [discriminate|].
  apply resignFrom_resolved in Hl. cbn [app] in Hl.
  destruct (packageForDelivery_resolved _ _ _ _ _ _ H) as (Hd & Ht & _).
  exists apath, w1, fr, w2, w3. split; [exact Hx|]. split; [exact Hf|].
  cbv zeta. split; [|exact Hd].
  rewrite Ht, Hl, map_map.
  rewrite (map_ext _ (fun value => Path.basename (Js.trim value)));
    [reflexivity|].
  intros value. apply basename_idempotent.
Qed.

Lemma ipa_delivery_names_every_bundle_witness :
  exists apath w1 findResult w2 w3,
    extractArchiveContents (scripted (shadowScript "App.ipa"))
      "/uploads/app.zip" "/tmp/" initial = (Resolved apath, w1)
    /\ exec (scripted (shadowScript "App.ipa")) (Find apath "*.ipa") w1
       = (Resolved findResult, w2)
    /\ let names :=
         map (fun value => Path.basename (Js.trim value))
           (filter isBundle (Js.split Js.LF (stdout findResult))) in
       let fileName :=
         generate (scripted (shadowScript "App.ipa")) (issued w3) ++ ".zip" in
       [Unzip "/uploads/app.zip" "/tmp/id0"; Find "/tmp/id0" "*.ipa";
        Unzip "/tmp/id0/App.ipa" "/tmp/id0/signed/0";
        ShowAuthority "/tmp/id0/signed/0"; FindIdentity; FindIdentity;
        Resign "/tmp/id0/signed/0" "0A1B2C3D4E5F" "App.ipa" "/tmp/id0";
        ZipDelivery "/tmp/id0" "id1.zip" "App.ipa"]
       = (trace w3 ++ [ZipDelivery apath fileName (Js.join " " names)])%list
       /\ "/tmp/id0/id1.zip" = Path.join [apath; fileName].
Proof.
  exact (ipa_delivery_names_every_bundle (scripted (shadowScript "App.ipa"))
           "/uploads/app.zip" "/tmp/" initial "/tmp/id0/id1.zip" _ eq_refl).
Defined.

(* ------------------------------------------------------------------ *)
(** ** Further properties: what the xcarchive pipelines log and run *)

Lemma collectExported_world response : forall items w o w',
  collectExported response items w = (o, w') -> w' = w.
Proof.
  induction response as [|value rest IH]; intros items w o w'; simpl.
  - intros H. now inversion H.
  - destruct (Js.includes _ _); [|apply IH].
    destruct (negb _); [|apply IH]. intros H. now inversion H.
Qed.

Lemma adds_collectExported allowed response items :
  adds allowed (collectExported response items).
Proof.
  intros w o w' H. apply collectExported_world in H. subst.
  exists []. now rewrite app_nil_r.
Qed.

Lemma adds_promiseAll {A} allowed (ps : list (Async A)) :
  (forall p, In p ps -> adds allowed p) -> adds allowed (promiseAll ps).
Proof.
  induction ps as [|p rest IH]; intros Hps w o w'; simpl.
  - intros H. inversion H; subst. exists []. now rewrite app_nil_r.
  - destruct (p w) as [o1 w1] eqn:Hp.
    destruct (promiseAll rest w1) as [o2 w2] eqn:Hrest.
    destruct (Hps p (or_introl eq_refl) _ _ _ Hp) as (a1 & T1 & F1 & L1).
    destruct (IH (fun q Hq => Hps q (or_intror Hq)) _ _ _ Hrest)
      as (a2 & T2 & F2 & L2).
    intros H. inversion H; subst.
    exists (a1 ++ a2)%list. rewrite T2, T1, <- app_assoc, forallb_app, F1, F2.
    repeat split. congruence.
Qed.

Lemma adds_exports allowed host apath findResult :
  (forall archivePath exportPath plist,
      allowed (ExportArchive archivePath exportPath plist) = true) ->
  adds allowed (promiseAll (exportsOf host apath findResult)).
Proof.
  intros Hexp. apply adds_promiseAll. unfold exportsOf. intros p Hp.
  apply in_map_iff in Hp. destruct Hp as (element & <- & _).
  apply adds_exec. apply Hexp.
Qed.

(** The shared stages run no zip command and write no line. *)
Lemma exportStages_adds host archiveFilePath workspace :
  adds zipsNothing (exportStages host archiveFilePath workspace).
Proof.
  unfold exportStages, extractArchiveContents.
  apply adds_bind.
  { apply adds_bind; [apply adds_shortid|]. intros id.
    apply adds_bind; [now apply adds_exec | intros _; apply adds_ret]. }
  intros apath. apply adds_bind; [now apply adds_exec|]. intros findResult.
  destruct (negb _); [apply adds_throw|].
  apply adds_bind; [now apply adds_exports|]. intros response.
  apply adds_bind; [apply adds_collectExported | intros items; apply adds_ret].
Qed.

(** X14: in the June 2018 [signxcarchive], a rejection without a reason
    means that a stage before the packaging failed: one line has been
    written with [console.log] and no zip command has been run.  A rejection
    that carries a reason comes from the packaging: nothing has been logged
    and the last command run is its zip command.  When the run resolves,
    nothing has been logged, the last command run is the zip command of the
    packaging, and the path returned is the archive that command writes. *)
Theorem xcarchive_opaque_rejection_precedes_packaging host archiveFilePath
    workspace w :
  let run := signxcarchive host archiveFilePath workspace w in
  match fst run with
  | Rejected None =>
      exists line added,
        logged (snd run) = (logged w ++ [(ConsoleLog, line)])%list
        /\ trace (snd run) = (trace w ++ added)%list
        /\ forallb zipsNothing added = true
  | Rejected (Some _) =>
      logged (snd run) = logged w
      /\ exists dir fileName names,
           last (trace (snd run)) FindIdentity = ZipDelivery dir fileName names
  | Resolved delivery =>
      logged (snd run) = logged w
      /\ exists dir fileName names,
           last (trace (snd run)) FindIdentity = ZipDelivery dir fileName names
           /\ delivery = Path.join [dir; fileName]
  end.
Proof.
  intros run.
  pose proof (signxcarchive_after_stages host archiveFilePath workspace w) as H.
  fold run in H.
  destruct (exportStages host archiveFilePath workspace w)
    as [[[apath items]|e] w3] eqn:Hs;
    destruct (exportStages_adds host archiveFilePath workspace _ _ _ Hs)
      as (added & T & F & L).
  - rewrite H.
    destruct (packageForDelivery host (Path.join [apath; "signed"]) items w3)
      as [[delivery|reason] w'] eqn:Hp; cbn [fst snd].
    + destruct (packageForDelivery_resolved _ _ _ _ _ _ Hp) as (Hd & Ht & Hl).
      split; [congruence|]. eexists _, _, _. split; [|exact Hd].
      rewrite Ht. apply last_last.
    + destruct (packageForDelivery_reason _ _ _ _ _ _ Hp) as (err & ->).
      destruct (packageForDelivery_trace _ _ _ _ _ _ Hp) as (Ht & Hl).
      split; [congruence|]. eexists _, _, _. rewrite Ht. apply last_last.
  - destruct H as (err & -> & ->). cbn [fst snd afterLog logged trace].
    exists (message err), added. rewrite L. now repeat split.
Qed.

Lemma legacy_packaging_settles host apath items w3 :
  let deliveryFile := Path.join [apath; generate host (issued w3) ++ ".zip"] in
  let packaging : Async (Async string) :=
    id' <- shortid_generate host ;;
    zipResult <- exec host (ZipInline (Path.join [apath; id' ++ ".zip"])
                              (Js.join "," items)) ;;
    if negb (stderr zipResult =? "") || Js.includes (stdout zipResult) "FAIL"
    then throw (Error "Unable to create delivery package")
    else ret (ret (Path.join [apath; id' ++ ".zip"])) in
  exists o w4,
    packaging w3 = (o, w4)
    /\ trace w4 = (trace w3 ++ [ZipInline deliveryFile (Js.join "," items)])%list
    /\ logged w4 = logged w3
    /\ match o with
       | Resolved promise => promise = ret deliveryFile
       | Rejected reason => exists err, reason = Some err
       end.
Proof.
  cbv zeta. unfold shortid_generate, bind.
  destruct (exec host _ _) as [[z|e] w4] eqn:Hz.
  - pose proof (exec_trace _ _ _ _ _ Hz) as (T & _ & L). cbn in T, L.
    destruct (negb (stderr z =? "") || Js.includes (stdout z) "FAIL").
    + eexists _, _. split; [reflexivity|]. repeat split; eauto.
    + eexists _, _. split; [reflexivity|]. repeat split; eauto.
  - pose proof (exec_trace _ _ _ _ _ Hz) as (T & _ & L). cbn in T, L.
    destruct (exec_reason _ _ _ _ _ Hz) as (err & ->).
    eexists _, _. split; [reflexivity|]. repeat split; eauto.
Qed.

(** X15: the January 2018 [signxcarchive] never rejects with a reason:
    whatever stage fails, packaging included, the error is caught, exactly
    one line is written with [logger.error], and the caller gets a rejection
    without a reason.  When the run resolves, nothing has been logged and the
    last command run is the zip command that writes the returned archive. *)
Theorem legacy_xcarchive_failures_are_opaque host archiveFilePath workspace w :
  let run := Legacy.signxcarchive host archiveFilePath workspace w in
  match fst run with
  | Rejected reason =>
      reason = None
      /\ exists line, logged (snd run) = (logged w ++ [(LoggerError, line)])%list
  | Resolved delivery =>
      logged (snd run) = logged w
      /\ exists items,
           last (trace (snd run)) FindIdentity = ZipInline delivery items
  end.
Proof.
  intros run.
  pose proof (legacy_signxcarchive_after_stages host archiveFilePath workspace w)
    as Hold.
  cbv zeta in Hold. fold run in Hold.
  destruct (exportStages host archiveFilePath workspace w)
    as [[[apath items]|e] w3] eqn:Hs;
    destruct (exportStages_adds host archiveFilePath workspace _ _ _ Hs)
      as (added & T & F & L).
  - clear Hold.
    destruct (legacy_packaging_settles host apath items w3)
      as (o & w4 & Hp & T4 & L4 & Ho).
    cbv zeta in Hp.
    assert (Hrun :
              run
              = match o with
                | Resolved promise => promise w4
                | Rejected reason =>
                    (promise <-
                       (m <- messageOf reason ;;
                        write LoggerError m ;; ret (@reject string)) ;;
                     promise) w4
                end).
    { unfold exportStages, extractArchiveContents in Hs.
      apply bind_inv in Hs. destruct Hs as [(? & _ & ?)|(ap & w1 & Hx & Hs)];
        [discriminate|].
      apply bind_inv in Hx. destruct Hx as [(? & _ & ?)|(id & w0 & Hid & Hx)];
        [discriminate|].
      apply bind_inv in Hx. destruct Hx as [(? & _ & ?)|(u & w1' & Hu & Hx)];
        [discriminate|].
      inversion Hx; subst ap w1'. clear Hx.
      apply bind_inv in Hs. destruct Hs as [(? & _ & ?)|(fr & w2 & Hf & Hs)];
        [discriminate|].
      destruct (negb (stderr fr =? "")) eqn:Hneg; [discriminate|].
      apply bind_inv in Hs. destruct Hs as [(? & _ & ?)|(response & w3' & Hall & Hs)];
        [discriminate|].
      apply bind_inv in Hs. destruct Hs as [(? & _ & ?)|(its & w3'' & Hc & Hs)];
        [discriminate|].
      inversion Hs; subst. clear Hs. unfold exportsOf in Hall.
      unfold run, Legacy.signxcarchive.
      match goal with
      | |- bind (tryCatch ?body ?handler) _ _ = _ =>
          assert (Hbody : body w = (o, w4))
      end.
      { rewrite (bind_resolved _ Hid). cbv zeta.
        rewrite (bind_resolved _ Hu), (bind_resolved _ Hf), Hneg.
        rewrite (bind_resolved _ Hall), (bind_resolved _ Hc). exact Hp. }
      unfold bind at 1. unfold tryCatch. rewrite Hbody.
      destruct o as [promise|reason]; reflexivity. }
    destruct o as [promise|reason].
    + subst promise. rewrite Hrun. cbn [fst snd ret].
      split; [congruence|]. exists (Js.join "," items). rewrite T4. apply last_last.
    + destruct Ho as (err & ->). rewrite Hrun. cbn. split; [reflexivity|].
      exists (message err). now rewrite L4, L.
  - destruct Hold as (err & -> & ->). cbn [fst snd afterLog logged].
    split; [reflexivity|]. exists (message err). now rewrite L.
Qed.

(* ------------------------------------------------------------------ *)
(** ** Further properties: how many identities the listing yields *)

Lemma split_length sep s : List.length (Js.split sep s) = S (countChar sep s).
Proof.
  induction s as [|c r IH]; [reflexivity|]. simpl.
  destruct (Ascii.eqb c sep); simpl; [now rewrite IH|].
  destruct (Js.split sep r); simpl in *; lia.
Qed.

(** X16: whatever the identity listing prints, [currentValidSigningIdentities]
    returns one entry less than there are line breaks in the output (none
    when there is no line break): the last two pieces of the output are
    dropped unread, so an identity line that is not followed by two line
    breaks is lost. *)
Theorem listing_yields_line_breaks_less_one host w r w' :
  exec host FindIdentity w = (Resolved r, w') ->
  exists entries,
    currentValidSigningIdentities host w = (Resolved entries, w')
    /\ List.length entries = countChar Js.LF (stdout r) - 1.
Proof.
  intros He. unfold currentValidSigningIdentities.
  rewrite (bind_resolved _ He). eexists. split; [reflexivity|].
  rewrite length_map. unfold Js.sliceEnd.
  rewrite length_firstn, split_length. lia.
Qed.

Lemma listing_yields_line_breaks_less_one_witness :
  let host :=
    scripted (mkScript (fun _ => "") (fun _ _ => "")
                ("  1) 0A1B2C3D4E5F " ++ Js.quoted "Apple Distribution: Example Org"
                 ++ nl ++ "     1 valid identities found")
                "" "") in
  exists entries,
    currentValidSigningIdentities host initial
    = (Resolved entries, mkWorld [FindIdentity] 0 [])
    /\ List.length entries = 1 - 1.
Proof.
  intros host.
  exact (listing_yields_line_breaks_less_one host initial _ _ eq_refl).
Defined.
